(** * DeepThink backend: the WebSocket transport, the LLM provider factory
      and the reasoning engine's event contract.

    Sources embedded here:
    - [backend/src/websocket/ChatWebSocket.ts] ([safeSend], [setupWebSocket]);
    - the provider factory [LLMFactory] ([getCacheKey], [createLLM],
      [clearCache]);
    - the engine [DeepThinkEngine] is used by the transport but its source
      is not part of the tree; its event contract is modelled separately in
      [Module Engine]. *)

From Stdlib Require Import List Bool Arith NArith Lia String Ascii Sorted.
From Stdlib Require Import Floats.PrimFloat.
Import ListNotations.
Open Scope string_scope.
Open Scope list_scope.
Open Scope bool_scope.

(* ================================================================== *)
(** * JavaScript values *)
(* ================================================================== *)

(** A JavaScript string is a sequence of UTF-16 code units; [.length]
    counts code units. *)
Definition code_unit := N.
Definition jsstring := list code_unit.

(** String literals of the source (all of them ASCII). *)
Fixpoint lit (s : string) : jsstring :=
  match s with
  | EmptyString => []
  | String c r => N_of_ascii c :: lit r
  end.
Coercion lit : string >-> jsstring.

Fixpoint jsstring_eqb (a b : jsstring) : bool :=
  match a, b with
  | [], [] => true
  | x :: a', y :: b' => N.eqb x y && jsstring_eqb a' b'
  | _, _ => false
  end.

(** [s.length] *)
Definition js_length (s : jsstring) : N := N.of_nat (List.length s).

(** WhiteSpace and LineTerminator code points, the ones [String.prototype.trim]
    removes. *)
Definition is_whitespace (u : code_unit) : bool :=
  ((9 <=? u) && (u <=? 13))%N
  || (u =? 32)%N || (u =? 160)%N || (u =? 5760)%N
  || ((8192 <=? u) && (u <=? 8202))%N
  || (u =? 8232)%N || (u =? 8233)%N || (u =? 8239)%N || (u =? 8287)%N
  || (u =? 12288)%N || (u =? 65279)%N.

Fixpoint trimStart (s : jsstring) : jsstring :=
  match s with
  | [] => []
  | u :: r => if is_whitespace u then trimStart r else s
  end.

Definition trimEnd (s : jsstring) : jsstring := rev (trimStart (rev s)).

(** [s.trim()] *)
Definition trim (s : jsstring) : jsstring := trimEnd (trimStart s).

Set Warnings "-register-all".

(** Values of type [any]: what [JSON.parse] returns, what object literals
    build.  An object keeps its own properties in insertion order. *)
Inductive JSVal : Type :=
| JUndefined
| JNull
| JBool (b : bool)
| JNum (x : float)
| JStr (s : jsstring)
| JArr (items : list JSVal)
| JObj (fields : list (jsstring * JSVal)).

(** One property of an object literal, [k: v]. *)
Definition fld (k : jsstring) (v : JSVal) : jsstring * JSVal := (k, v).

(** ToBoolean: [undefined], [null], [false], [0], [-0], [NaN] and [''] are
    falsy, everything else (every array and object included) is truthy. *)
Definition truthy (v : JSVal) : bool :=
  match v with
  | JUndefined | JNull => false
  | JBool b => b
  | JNum x => negb (PrimFloat.eqb x 0%float) && PrimFloat.eqb x x
  | JStr s => match s with [] => false | _ :: _ => true end
  | JArr _ | JObj _ => true
  end.

(** [a || b] *)
Definition js_or (a b : JSVal) : JSVal := if truthy a then a else b.

Definition nullish (v : JSVal) : bool :=
  match v with
  | JUndefined | JNull => true
  | _ => false
  end.

Fixpoint lookup_field (k : jsstring) (fs : list (jsstring * JSVal)) : option JSVal :=
  match fs with
  | [] => None
  | (k', v) :: r => if jsstring_eqb k k' then Some v else lookup_field k r
  end.

(** [k in obj] for own properties. *)
Definition has_key (k : jsstring) (v : JSVal) : bool :=
  match v with
  | JObj fs => match lookup_field k fs with Some _ => true | None => false end
  | _ => false
  end.

(** [v.k] on a value that is neither [null] nor [undefined].  The property
    names read by the code ([type], [query], [maxRounds], [model], [apiKey],
    [baseUrl], [fileContext], [provider], [defaultModel]) exist on no
    built-in prototype, so on a primitive or an array the read gives
    [undefined], and on an object it gives the own property if there is one. *)
Definition prop (v : JSVal) (k : jsstring) : JSVal :=
  match v with
  | JObj fs => match lookup_field k fs with Some x => x | None => JUndefined end
  | _ => JUndefined
  end.

(** [v?.k] *)
Definition opt_prop (v : JSVal) (k : jsstring) : JSVal :=
  if nullish v then JUndefined else prop v k.

(** [obj.k = x]: overwrite in place, or append a new own property. *)
Fixpoint set_field (k : jsstring) (x : JSVal) (fs : list (jsstring * JSVal))
  : list (jsstring * JSVal) :=
  match fs with
  | [] => [(k, x)]
  | (k', v) :: r =>
      if jsstring_eqb k k' then (k', x) :: r else (k', v) :: set_field k x r
  end.

Definition assign (obj : JSVal) (k : jsstring) (x : JSVal) : JSVal :=
  match obj with
  | JObj fs => JObj (set_field k x fs)
  | _ => obj
  end.

(** [v === 'literal'] *)
Definition is_str (v : JSVal) (s : jsstring) : bool :=
  match v with
  | JStr t => jsstring_eqb t s
  | _ => false
  end.

(** A text between double quotes, as it stands in a raw JSON message. *)
Definition quoted (s : string) : jsstring := [34%N] ++ lit s ++ [34%N].

(** A thrown [Error]; only its [message] is ever read. *)
Record JSError : Type := mkError { err_message : jsstring }.

(* ================================================================== *)
(** * The WebSocket transport ([ChatWebSocket.ts]) *)
(* ================================================================== *)

Module ChatWebSocket.

(** Engines are objects; the transport only compares and calls them, so an
    engine is known by its identity. *)
Definition EngineId := nat.

(** What the handlers do to the outside world, in order. *)
Inductive Action : Type :=
| SocketSend (payload : JSVal)
    (* socket.send(JSON.stringify(payload)) *)
| NewEngine (e : EngineId)
    (* new DeepThinkEngine() *)
| Stream (e : EngineId) (query : jsstring) (streamConfig : JSVal)
    (* engine.stream(query, streamConfig) *)
| Abort (e : EngineId)
    (* engine.abort() *)
| Return (e : EngineId).
    (* break out of the for await loop: the iterator is closed *)

(** One element of the sequence [engine.stream] yields; the loop reads
    [update.type], [update.node], [update.data] and [update.state]. *)
Record StreamUpdate : Type := mkUpdate {
  u_type : JSVal;
  u_node : JSVal;
  u_data : JSVal;
  u_state : JSVal
}.

(** The connection: the two closure variables of the route handler, the
    socket's [readyState], and the handler invocations that are suspended
    in their [for await] loop (each one holds its own [engine]). *)
Record Conn : Type := mkConn {
  isProcessing : bool;
  currentEngine : option EngineId;
  readyState : N;
  running : list EngineId;
  nextEngine : EngineId
}.

(** A fresh connection with an open socket. *)
Definition connect : Conn := mkConn false None 1 [] 0.

Definition MAX_MESSAGE_SIZE : N := 1 * 1024 * 1024.

(** The payload behind [PONG_MSG = JSON.stringify({ type: 'pong' })]. *)
Definition PONG_MSG : JSVal := JObj [fld "type" (JStr "pong")].

(** [{ type: 'error', message }] *)
Definition error_event (message : jsstring) : JSVal :=
  JObj [fld "type" (JStr "error"); fld "message" (JStr message)].

(** [safeSend]: sends when the socket is open, drops the payload otherwise. *)
Definition safeSend (c : Conn) (payload : JSVal) : list Action :=
  if (readyState c =? 1)%N then [SocketSend payload] else [].

Definition set_session (c : Conn) (p : bool) (e : option EngineId) : Conn :=
  mkConn p e (readyState c) (running c) (nextEngine c).

Definition set_readyState (c : Conn) (rs : N) : Conn :=
  mkConn (isProcessing c) (currentEngine c) rs (running c) (nextEngine c).

(** The handler invocation that owns engine [e] has left its loop. *)
Definition leave (c : Conn) (e : EngineId) : Conn :=
  mkConn (isProcessing c) (currentEngine c) (readyState c)
         (filter (fun x => negb (Nat.eqb x e)) (running c)) (nextEngine c).

(** The invocation for a new query suspends in its loop. *)
Definition enter (c : Conn) (e : EngineId) : Conn :=
  mkConn (isProcessing c) (currentEngine c) (readyState c)
         (e :: running c) (S (nextEngine c)).

(** Lines 92-96: the config handed to [engine.stream]. *)
Definition buildStreamConfig (data : JSVal) : JSVal :=
  let streamConfig :=
    JObj [fld "maxRounds" (js_or (prop data "maxRounds") (JNum 1%float))] in
  let streamConfig :=
    if truthy (prop data "model")
    then assign streamConfig "defaultModel" (prop data "model")
    else streamConfig in
  let streamConfig :=
    if truthy (prop data "apiKey")
    then assign streamConfig "apiKey" (prop data "apiKey")
    else streamConfig in
  let streamConfig :=
    if truthy (prop data "baseUrl")
    then assign streamConfig "baseUrl" (prop data "baseUrl")
    else streamConfig in
  let streamConfig :=
    if truthy (prop data "fileContext")
    then assign streamConfig "fileContext" (prop data "fileContext")
    else streamConfig in
  streamConfig.

(** Lines 106-138: the payload sent for an update, if its type is one of
    the four the loop knows. *)
Definition wire_event (update : StreamUpdate) : option JSVal :=
  if is_str (u_type update) "node_start" then
    Some (JObj [fld "type" (JStr "state_update");
                fld "node" (u_node update);
                fld "status" (JStr "started");
                fld "data" (js_or (u_data update) (JObj []))])
  else if is_str (u_type update) "expert_complete" then
    Some (JObj [fld "type" (JStr "expert_complete");
                fld "data" (u_data update)])
  else if is_str (u_type update) "node_complete" then
    let nodeCompleteData :=
      JObj [fld "type" (JStr "state_update");
            fld "node" (u_node update);
            fld "status" (JStr "completed")] in
    Some (if is_str (u_node update) "search"
             && truthy (opt_prop (u_state update) "searchResults")
          then assign nodeCompleteData "searchResults"
                      (prop (u_state update) "searchResults")
          else nodeCompleteData)
  else if is_str (u_type update) "complete" then
    Some (JObj [fld "type" (JStr "complete");
                fld "data"
                  (JObj [fld "final_output" (opt_prop (u_state update) "finalOutput");
                         fld "experts" (opt_prop (u_state update) "expertsOutput");
                         fld "searchResults" (opt_prop (u_state update) "searchResults")])])
  else None.

(** Lines 140-143, the [finally] block. *)
Definition finally_block (c : Conn) : Conn := set_session c false None.

(** Lines 144-152, the outer [catch]. *)
Definition catch_block (c : Conn) (error : JSError) : Conn * list Action :=
  (set_session c false None,
   safeSend c (error_event
     (match err_message error with
      | [] => lit "Unknown error"
      | _ :: _ => err_message error
      end))).

(** Reading a property of [null] or [undefined]. *)
Definition TypeError_read (v : JSVal) (k : string) : JSError :=
  mkError (lit ("Cannot read properties of "
                ++ (match v with JNull => "null" | _ => "undefined" end)
                ++ " (reading '" ++ k ++ "')")%string).

(** Line 71: the query of a parsed message. *)
Definition query_of (data : JSVal) : jsstring :=
  match prop data "query" with
  | JStr s => trim s
  | _ => []
  end.

(** Whether [new DeepThinkEngine()] returns or throws. *)
Inductive CtorOutcome : Type :=
| CtorOk
| CtorThrows (error : JSError).

(** The ['message'] handler up to its first suspension.  [parsed] is the
    outcome of [JSON.parse(msgStr)]: [None] when it throws.  [ctor] is only
    consulted when the handler reaches [new DeepThinkEngine()]. *)
Definition on_message (c : Conn) (msgStr : jsstring) (parsed : option JSVal)
    (ctor : CtorOutcome) : Conn * list Action :=
  if (MAX_MESSAGE_SIZE <? js_length msgStr)%N then
    (c, safeSend c (error_event "Message too large"))
  else
    match parsed with
    | None => (c, safeSend c (error_event "Invalid JSON"))
    | Some data =>
        if nullish data then catch_block c (TypeError_read data "type")
        else if is_str (prop data "type") "ping" then
          (c, [SocketSend PONG_MSG])
        else if is_str (prop data "type") "cancel" then
          (c, match currentEngine c with
              | Some e => [Abort e]
              | None => []
              end)
        else if isProcessing c then
          (c, safeSend c (error_event
                "Already processing a query. Please wait or send cancel."))
        else
          let query := query_of data in
          match query with
          | [] => (c, safeSend c (error_event "Empty query"))
          | _ :: _ =>
              if (50000 <? js_length query)%N then
                (c, safeSend c (error_event
                      "Query too long (max 50,000 characters)"))
              else
                let c1 := set_session c true (currentEngine c) in
                match ctor with
                | CtorThrows error => catch_block c1 error
                | CtorOk =>
                    let engine := nextEngine c1 in
                    let c2 := set_session c1 true (Some engine) in
                    (enter c2 engine,
                     [NewEngine engine;
                      Stream engine query (buildStreamConfig data)])
                end
          end
    end.

(** The loop body for one update (lines 100-138). *)
Definition on_update (c : Conn) (engine : EngineId) (update : StreamUpdate)
  : Conn * list Action :=
  if negb (readyState c =? 1)%N then
    (leave (finally_block c) engine, [Abort engine; Return engine])
  else
    (c, match wire_event update with
        | Some payload => safeSend c payload
        | None => []
        end).

(** The stream ends: the loop exits and [finally] runs. *)
Definition on_done (c : Conn) (engine : EngineId) : Conn * list Action :=
  (leave (finally_block c) engine, []).

(** The stream throws: [finally] runs, then the outer [catch]. *)
Definition on_throw (c : Conn) (engine : EngineId) (error : JSError)
  : Conn * list Action :=
  let (c', out) := catch_block (finally_block c) error in
  (leave c' engine, out).

(** The ['close'] handler (lines 155-162). *)
Definition on_close (c : Conn) : Conn * list Action :=
  match currentEngine c with
  | Some e => (set_session c (isProcessing c) None, [Abort e])
  | None => (c, [])
  end.

(** What can happen on a connection. *)
Inductive Input : Type :=
| Message (msgStr : jsstring) (parsed : option JSVal) (ctor : CtorOutcome)
| Yield (e : EngineId) (update : StreamUpdate)
| Done (e : EngineId)
| Throw (e : EngineId) (error : JSError)
| SocketState (rs : N)
| Close.

Definition in_flight (c : Conn) (e : EngineId) : bool :=
  existsb (Nat.eqb e) (running c).

(** One event-loop turn.  An engine event only reaches a handler that is
    still in its loop. *)
Definition step (c : Conn) (i : Input) : Conn * list Action :=
  match i with
  | Message msgStr parsed ctor => on_message c msgStr parsed ctor
  | Yield e update => if in_flight c e then on_update c e update else (c, [])
  | Done e => if in_flight c e then on_done c e else (c, [])
  | Throw e error => if in_flight c e then on_throw c e error else (c, [])
  | SocketState rs => (set_readyState c rs, [])
  | Close => on_close c
  end.

Fixpoint run (c : Conn) (inputs : list Input) : Conn * list Action :=
  match inputs with
  | [] => (c, [])
  | i :: rest =>
      let (c1, out1) := step c i in
      let (c2, out2) := run c1 rest in
      (c2, out1 ++ out2)
  end.

(** Shapes of what goes on the wire. *)
Definition is_error_event (payload : JSVal) : bool :=
  match payload with
  | JObj [(k1, JStr t); (k2, JStr _)] =>
      jsstring_eqb k1 "type" && jsstring_eqb t "error"
      && jsstring_eqb k2 "message"
  | _ => false
  end.

Definition is_engine_call (a : Action) : bool :=
  match a with
  | NewEngine _ | Stream _ _ _ => true
  | _ => false
  end.

(** The session variables agree with the handlers in flight: nothing runs
    on an idle session, and a busy session has one run, whose engine is the
    current one unless the ['close'] handler has already dropped it. *)
Definition session_ok (c : Conn) : Prop :=
  match running c with
  | [] => isProcessing c = false /\ currentEngine c = None
  | [e] => isProcessing c = true
           /\ (currentEngine c = Some e \/ currentEngine c = None)
  | _ :: _ :: _ => False
  end.

(** Messages whose JSON text is [null] (or would read as [undefined]) make
    the handler throw on [data.type]; every other input is plain. *)
Definition plain (i : Input) : bool :=
  match i with
  | Message _ (Some data) _ => negb (nullish data)
  | _ => true
  end.

(** The payloads an action list puts on the socket, in order. *)
Definition frames (out : list Action) : list JSVal :=
  flat_map (fun a => match a with SocketSend p => [p] | _ => [] end) out.

(** The values of [type] the transport writes. *)
Definition wire_types : list jsstring :=
  [lit "pong"; lit "error"; lit "state_update"; lit "expert_complete";
   lit "complete"].

End ChatWebSocket.

(* ================================================================== *)
(** * The provider factory ([LLMFactory]) *)
(* ================================================================== *)

Module LLMFactory.

(** Modelled from the spec: the declaration of the config objects
    ([llm.config.js]) is not in the tree.  A config is the (provider, key,
    endpoint, model) tuple of the spec; a field that is there holds a
    string. *)
Record LLMConfig : Type := mkConfig {
  provider : option jsstring;
  apiKey : option jsstring;
  baseUrl : option jsstring;
  defaultModel : option jsstring
}.

(** Modelled from the spec: the class [OpenAIProvider] is not in the tree.
    A Model Client is a reusable network client made from a key, an endpoint
    and a model; an instance is its identity together with the arguments of
    [new OpenAIProvider(apiKey, baseUrl, defaultModel)]. *)
Record BaseLLMProvider : Type := mkProvider {
  instance : nat;
  p_apiKey : option jsstring;
  p_baseUrl : option jsstring;
  p_defaultModel : option jsstring
}.

Definition MAX_CACHE_SIZE : nat := 20.

(** [x || dflt] on an optional string: the empty string is falsy too. *)
Definition or_else (x : option jsstring) (dflt : jsstring) : jsstring :=
  match x with
  | Some (u :: r) => u :: r
  | _ => dflt
  end.

(** [!x] on an optional string. *)
Definition falsy (x : option jsstring) : bool :=
  match x with
  | Some (_ :: _) => false
  | _ => true
  end.

Definition getCacheKey (config : LLMConfig) : jsstring :=
  or_else (provider config) "openai" ++ lit ":"
  ++ or_else (apiKey config) [] ++ lit ":"
  ++ or_else (baseUrl config) [] ++ lit ":"
  ++ or_else (defaultModel config) [].

(** The static [Map<string, BaseLLMProvider>]: entries in insertion order. *)
Definition Cache := list (jsstring * BaseLLMProvider).

Fixpoint cache_get (k : jsstring) (m : Cache) : option BaseLLMProvider :=
  match m with
  | [] => None
  | (k', v) :: r => if jsstring_eqb k k' then Some v else cache_get k r
  end.

Definition cache_size (m : Cache) : nat := List.length m.

(** [m.keys().next().value] *)
Definition first_key (m : Cache) : option jsstring :=
  match m with
  | [] => None
  | (k, _) :: _ => Some k
  end.

Fixpoint cache_delete (k : jsstring) (m : Cache) : Cache :=
  match m with
  | [] => []
  | (k', v) :: r => if jsstring_eqb k k' then r else (k', v) :: cache_delete k r
  end.

(** [m.set(k, v)]: a key already there keeps its place. *)
Fixpoint cache_set (k : jsstring) (v : BaseLLMProvider) (m : Cache) : Cache :=
  match m with
  | [] => [(k, v)]
  | (k', v') :: r =>
      if jsstring_eqb k k' then (k', v) :: r else (k', v') :: cache_set k v r
  end.

(** The class's static state, and how many providers were constructed. *)
Record Factory : Type := mkFactory {
  cache : Cache;
  constructed : nat
}.

Definition empty_factory : Factory := mkFactory [] 0.

Definition API_KEY_ERROR : JSError :=
  mkError (lit "LLM API Key "
           ++ [26410; 37197; 32622; 12290; 35831; 22312; 31649; 29702; 38754; 26495]%N
           ++ lit " (/admin) " ++ [20013; 35774; 32622]%N
           ++ lit " API Key" ++ [65292; 25110; 22312]%N
           ++ lit " .env " ++ [20013; 37197; 32622]%N
           ++ lit " OPENAI_API_KEY" ++ [12290]%N).

(** Lines 37-41. *)
Definition evict (m : Cache) : Cache :=
  if (MAX_CACHE_SIZE <=? cache_size m)%nat then
    match first_key m with
    | Some (u :: r) => cache_delete (u :: r) m
    | _ => m
    end
  else m.

(** The config [createLLM] works with: [customConfig || llmConfig.get()]. *)
Definition effective (stored : LLMConfig) (customConfig : option LLMConfig)
  : LLMConfig :=
  match customConfig with
  | Some c => c
  | None => stored
  end.

(** [createLLM(customConfig?)]; [stored] is what [llmConfig.get()] returns.
    The result is the thrown error or the provider, and the new state. *)
Definition createLLM (f : Factory) (stored : LLMConfig)
    (customConfig : option LLMConfig) : (JSError + BaseLLMProvider) * Factory :=
  let config := effective stored customConfig in
  if falsy (apiKey config) then (inl API_KEY_ERROR, f)
  else
    let cacheKey := getCacheKey config in
    match cache_get cacheKey (cache f) with
    | Some cached => (inr cached, f)
    | None =>
        let cache1 := evict (cache f) in
        let provider :=
          if match provider config with
             | Some p => jsstring_eqb p "openai"
             | None => false
             end
          then mkProvider (constructed f) (apiKey config) (baseUrl config)
                          (defaultModel config)
          else mkProvider (constructed f) (apiKey config) (baseUrl config)
                          (defaultModel config) in
        (inr provider,
         mkFactory (cache_set cacheKey provider cache1) (S (constructed f)))
    end.

Definition clearCache (f : Factory) : Factory := mkFactory [] (constructed f).

(** A sequence of uses of the class. *)
Inductive Call : Type :=
| CreateLLM (stored : LLMConfig) (customConfig : option LLMConfig)
| ClearCache.

Definition call (f : Factory) (c : Call) : Factory :=
  match c with
  | CreateLLM stored customConfig => snd (createLLM f stored customConfig)
  | ClearCache => clearCache f
  end.

Definition calls (f : Factory) (cs : list Call) : Factory := fold_left call cs f.

(** Every key in the cache is a non-empty string. *)
Definition keys_nonempty (m : Cache) : Prop :=
  Forall (fun kv => fst kv <> []) m.

(** [a] was constructed before [b]. *)
Definition older (a b : jsstring * BaseLLMProvider) : Prop :=
  instance (snd a) < instance (snd b).

(** The entries stand in the order in which their providers were
    constructed, the oldest first. *)
Definition insertion_ordered (f : Factory) : Prop :=
  StronglySorted older (cache f)
  /\ Forall (fun kv => instance (snd kv) < constructed f) (cache f).

(** The state of the class between calls. *)
Definition factory_ok (f : Factory) : Prop :=
  keys_nonempty (cache f)
  /\ cache_size (cache f) <= MAX_CACHE_SIZE
  /\ insertion_ordered f.

(** No key occurs twice, as in any [Map]. *)
Definition keys_unique (m : Cache) : Prop := NoDup (map fst m).

(** The separator of [getCacheKey] does not occur in [s]. *)
Definition colon_free (s : jsstring) : Prop := ~ In 58%N s.

End LLMFactory.

(* ================================================================== *)
(** * The engine's event contract ([DeepThinkEngine]) *)
(* ================================================================== *)

Module Engine.

(** Modelled from the spec: the class [DeepThinkEngine] is not in the tree.
    What follows is the Orchestrator, Round Controller, Research node,
    Expert Fan-out Coordinator and Synthesis node as the specification
    describes them, with the outcomes of the Search Client, of the Model
    Client and of [abort()] supplied by the environment. *)
Inductive Node : Type := search | experts | synthesis.

(** Modelled from the spec: RunState, the single accumulator of a run. *)
Record RunState : Type := mkState {
  searchResults : option (list JSVal);
  expertsOutput : list (nat * JSVal);
  finalOutput : option JSVal
}.

(** Modelled from the spec: the Event variant. *)
Inductive Event : Type :=
| NodeStart (node : Node) (data : JSVal)
| NodeComplete (node : Node) (results : option (list JSVal))
| ExpertComplete (data : JSVal)
| Complete (final_output : option JSVal) (experts_output : list (nat * JSVal))
           (search_results : option (list JSVal))
| Error (message : jsstring).

(** Modelled from the spec: RunConfig. *)
Record RunConfig : Type := mkRunConfig {
  maxRounds : nat;
  modelOverride : option jsstring;
  credentialOverride : option jsstring;
  endpointOverride : option jsstring;
  fileContext : option JSVal
}.

(** Modelled from the spec: the terminal states of the Orchestrator's state
    machine. *)
Inductive Terminal : Type := COMPLETED | ABORTED | FAILED.

(** Modelled from the spec: one expert's Model Client call as it settles;
    [entry] is the result, or the placeholder when the call failed. *)
Record ExpertCall : Type := mkExpert {
  expert : nat;
  failed : bool;
  entry : JSVal
}.

(** Modelled from the spec: what the collaborators do during one round.
    [abort_at = Some p]: [abort()] is called during this round and the
    token is seen set from the round's [p]-th check on.  [search_call]:
    the Search Client's result, [None] when it fails.  [expert_calls]: the
    experts' calls in the order they settle.  [synthesis_call]: the output
    and whether Synthesis holds it final, [None] when the call fails. *)
Record RoundEnv : Type := mkRound {
  abort_at : option nat;
  search_call : option (list JSVal);
  expert_calls : list ExpertCall;
  synthesis_call : option (JSVal * bool)
}.

(** Modelled from the spec: the CancellationToken, once set never reset. *)
Definition token_set (a : option nat) (check : nat) : bool :=
  match a with
  | Some p => (p <=? check)%nat
  | None => false
  end.

(** Modelled from the spec: how a round ends for the Orchestrator. *)
Inductive RoundResult : Type :=
| Continue (st : RunState)
| Stop (st : RunState)
| NodeFailure (message : jsstring)
| Cancelled.

(** Modelled from the spec: the Expert Fan-out Coordinator (4.4).  Each call
    that settles gives one [ExpertComplete] and one more entry of
    [expertsOutput]; [None] when the token is found set. *)
Fixpoint fanout (a : option nat) (check : nat) (calls : list ExpertCall)
    (out : list (nat * JSVal)) : list Event * option (list (nat * JSVal)) :=
  match calls with
  | [] => ([], Some out)
  | c :: rest =>
      if token_set a check then ([], None)
      else
        let (evs, r) := fanout a (S check) rest (out ++ [(expert c, entry c)]) in
        (ExpertComplete (entry c) :: evs, r)
  end.

(** Modelled from the spec: the fan-out fails as a node only when all of
    its experts fail (4.4). *)
Definition all_failed (calls : list ExpertCall) : bool :=
  match calls with
  | [] => false
  | _ :: _ => forallb failed calls
  end.

Section Policy.

(** The specification leaves open whether a failed Research node ends the
    run (section 7) or lets the round go on (section 4.3). *)
Variable research_failure_is_fatal : bool.

(** Modelled from the spec: the Round Controller (4.2), with the Research
    node (4.3) and the Synthesis node (4.5).  [last] says this is the last
    permitted round. *)
Definition round (last : bool) (st : RunState) (env : RoundEnv)
  : list Event * RoundResult :=
  let a := abort_at env in
  if token_set a 0 then ([], Cancelled) else
  let evs0 := [NodeStart search (JObj [])] in
  if token_set a 1 then (evs0, Cancelled) else
  match search_call env, research_failure_is_fatal with
  | None, true => (evs0, NodeFailure "Research failed")
  | found, _ =>
      let st1 :=
        match found with
        | Some r => mkState (Some r) (expertsOutput st) (finalOutput st)
        | None => st
        end in
      let evs1 := evs0 ++ [NodeComplete search found] in
      if token_set a 2 then (evs1, Cancelled) else
      let (xevs, settled) := fanout a 3 (expert_calls env) [] in
      let evs2 := evs1 ++ [NodeStart experts (JObj [])] ++ xevs in
      match settled with
      | None => (evs2, Cancelled)
      | Some out =>
          if all_failed (expert_calls env)
          then (evs2, NodeFailure "All experts failed")
          else
            let st2 := mkState (searchResults st1) out (finalOutput st1) in
            let evs3 := evs2 ++ [NodeComplete experts None] in
            let check := 3 + List.length (expert_calls env) in
            if token_set a check then (evs3, Cancelled) else
            let evs4 := evs3 ++ [NodeStart synthesis (JObj [])] in
            if token_set a (S check) then (evs4, Cancelled) else
            match synthesis_call env with
            | None => (evs4, NodeFailure "Synthesis failed")
            | Some (output, final) =>
                let evs5 := evs4 ++ [NodeComplete synthesis None] in
                if final || last
                then (evs5, Stop (mkState (searchResults st2) (expertsOutput st2)
                                          (Some output)))
                else (evs5, Continue st2)
            end
      end
  end.

(** Modelled from the spec: the one [Complete] event carries the
    accumulated RunState fields (4.1). *)
Definition complete_event (st : RunState) : Event :=
  Complete (finalOutput st) (expertsOutput st) (searchResults st).

(** Modelled from the spec: the Orchestrator (4.1) over the rounds that are
    left; [k] is the number of rounds already run. *)
Fixpoint rounds (env : nat -> RoundEnv) (k remaining : nat) (st : RunState)
  : list Event * Terminal :=
  match remaining with
  | 0 => ([complete_event st], COMPLETED)
  | S r =>
      let st0 := mkState (searchResults st) [] (finalOutput st) in
      let (evs, res) := round (r =? 0)%nat st0 (env k) in
      match res with
      | Cancelled => (evs, ABORTED)
      | NodeFailure message => (evs ++ [Error message], FAILED)
      | Stop st' =>
          match abort_at (env k) with
          | Some _ => (evs, ABORTED)
          | None => (evs ++ [complete_event st'], COMPLETED)
          end
      | Continue st' =>
          match abort_at (env k) with
          | Some _ => (evs, ABORTED)
          | None =>
              let (evs', t) := rounds env (S k) r st' in
              (evs ++ evs', t)
          end
      end
  end.

(** Modelled from the spec: [stream(query, config)], the whole event
    sequence of a run and the state it ends in. *)
Definition stream (query : jsstring) (config : RunConfig) (env : nat -> RoundEnv)
  : list Event * Terminal :=
  match query with
  | [] => ([Error "Query must not be empty"], FAILED)
  | _ :: _ => rounds env 0 (maxRounds config) (mkState None [] None)
  end.

End Policy.

Definition is_complete (e : Event) : bool :=
  match e with Complete _ _ _ => true | _ => false end.

Definition is_error (e : Event) : bool :=
  match e with Error _ => true | _ => false end.

Definition count (p : Event -> bool) (evs : list Event) : nat :=
  List.length (filter p evs).

(** An event that is neither [Complete] nor [Error]. *)
Definition progress (e : Event) : Prop :=
  is_complete e = false /\ is_error e = false.

End Engine.

(* ================================================================== *)
(** * Process lifecycle ([backend/src/index.ts]) *)
(* ================================================================== *)

Module Index.

Inductive Signal : Type := SIGTERM | SIGINT.

(** The logger calls of the file, one constructor for each call site. *)
Inductive LogLine : Type :=
| InitializingStore        (* info 'Initializing configuration store...' *)
| StoreInitialized         (* info 'Configuration store initialized' *)
| ServerListening          (* info `Server listening on ...` *)
| ReceivedSignal (s : Signal) (* info `Received ${signal}, shutting down ...` *)
| HttpServerClosed         (* info 'HTTP server closed' *)
| HttpCloseError           (* error 'Error closing HTTP server' *)
| DatabaseClosed           (* info 'Database closed' *)
| DatabaseCloseError       (* error 'Error closing database' *)
| StartError               (* error(err) in the catch of start *)
| RejectionLogged          (* error 'Unhandled Promise Rejection' *)
| ExceptionLogged.         (* fatal 'Uncaught Exception ...' *)

(** What the process does to the outside world. *)
Inductive Effect : Type :=
| Log (l : LogLine)
| InitConfigStore            (* await initConfigStore() *)
| CreateServer               (* await createServer() *)
| Listen                     (* await server.listen(...) *)
| OnSignal (s : Signal)      (* process.on(s, () => shutdown(s)) *)
| ServerClose                (* await server.close() *)
| ConfigStoreClose           (* configStore.close() *)
| Exit (code : nat).         (* process.exit(code) *)

(** Whether each awaited step of [start] returns ([true]) or throws. *)
Record StartEnv : Type := mkStartEnv {
  initConfigStore_ok : bool;
  createServer_ok : bool;
  listen_ok : bool
}.

(** The [catch] of [start] (lines 53-56). *)
Definition start_failed : list Effect := [Log StartError; Exit 1].

(** [start()] up to the registration of the signal handlers (lines 8-57). *)
Definition start (env : StartEnv) : list Effect :=
  [Log InitializingStore; InitConfigStore]
  ++ if negb (initConfigStore_ok env) then start_failed
     else
       [Log StoreInitialized; CreateServer]
       ++ if negb (createServer_ok env) then start_failed
          else
            [Listen]
            ++ if negb (listen_ok env) then start_failed
               else [Log ServerListening; OnSignal SIGTERM; OnSignal SIGINT].

(** The started process: the module variable [isShuttingDown], whether
    [shutdown] is suspended in [await server.close()], and the exit code
    once [process.exit] was called. *)
Record Proc : Type := mkProc {
  isShuttingDown : bool;
  closing : bool;
  exited : option nat
}.

(** The process once [start] has registered its handlers. *)
Definition listening : Proc := mkProc false false None.

(** What can happen to the started process.  [ServerCloseSettled ok store]
    resumes [shutdown] after [await server.close()]: [ok] says whether the
    close resolved, [store] whether [configStore.close()] returns. *)
Inductive Event : Type :=
| Signalled (s : Signal)
| ServerCloseSettled (ok : bool) (store : bool)
| UnhandledRejection
| UncaughtException.

(** [shutdown(signal)] up to its first suspension (lines 25-33). *)
Definition shutdown (p : Proc) (s : Signal) : Proc * list Effect :=
  if isShuttingDown p then (p, [])
  else (mkProc true true (exited p), [Log (ReceivedSignal s); ServerClose]).

(** The rest of [shutdown] (lines 33-47). *)
Definition shutdown_resume (p : Proc) (ok store : bool) : Proc * list Effect :=
  (mkProc (isShuttingDown p) false (Some 0),
   [Log (if ok then HttpServerClosed else HttpCloseError);
    ConfigStoreClose;
    Log (if store then DatabaseClosed else DatabaseCloseError);
    Exit 0]).

(** One turn of the started process; after [process.exit] nothing runs. *)
Definition step (p : Proc) (ev : Event) : Proc * list Effect :=
  match exited p with
  | Some _ => (p, [])
  | None =>
      match ev with
      | Signalled s => shutdown p s
      | ServerCloseSettled ok store =>
          if closing p then shutdown_resume p ok store else (p, [])
      | UnhandledRejection => (p, [Log RejectionLogged])
      | UncaughtException =>
          (mkProc (isShuttingDown p) (closing p) (Some 1),
           [Log ExceptionLogged; Exit 1])
      end
  end.

Fixpoint run (p : Proc) (evs : list Event) : Proc * list Effect :=
  match evs with
  | [] => (p, [])
  | ev :: rest =>
      let (p1, out1) := step p ev in
      let (p2, out2) := run p1 rest in
      (p2, out1 ++ out2)
  end.

Definition started (env : StartEnv) : bool :=
  initConfigStore_ok env && createServer_ok env && listen_ok env.

(** The whole life of the process: [start], and then, if it got as far as
    listening, what the events make it do. *)
Definition lifetime (env : StartEnv) (evs : list Event) : list Effect :=
  start env ++ if started env then snd (run listening evs) else [].

Definition is_exit (e : Effect) : bool :=
  match e with Exit _ => true | _ => false end.

Definition is_server_close (e : Effect) : bool :=
  match e with ServerClose => true | _ => false end.

Definition is_store_close (e : Effect) : bool :=
  match e with ConfigStoreClose => true | _ => false end.

Definition occurrences (f : Effect -> bool) (out : list Effect) : nat :=
  List.length (filter f out).

End Index.

(* ================================================================== *)
(** * Sample inputs *)
(* ================================================================== *)

Module Samples.

Import ChatWebSocket.

(** A query whose [model] field is the empty string, as a client sends it
    that leaves its model field blank: the raw text and what [JSON.parse]
    makes of it. *)
Definition empty_model_raw : jsstring :=
  lit "{" ++ quoted "query" ++ lit ":" ++ quoted "hi" ++ lit ","
  ++ quoted "model" ++ lit ":" ++ quoted EmptyString ++ lit "}".

Definition empty_model : JSVal :=
  JObj [fld "query" (JStr "hi"); fld "model" (JStr [])].

(** [{"query":"hi","model":"gpt-4o","maxRounds":3}] *)
Definition full_query_raw : jsstring :=
  lit "{" ++ quoted "query" ++ lit ":" ++ quoted "hi" ++ lit ","
  ++ quoted "model" ++ lit ":" ++ quoted "gpt-4o" ++ lit ","
  ++ quoted "maxRounds" ++ lit ":3}".

Definition full_query : JSVal :=
  JObj [fld "query" (JStr "hi"); fld "model" (JStr "gpt-4o");
        fld "maxRounds" (JNum 3%float)].

(** [{"type":"ping"}] *)
Definition ping_raw : jsstring :=
  lit "{" ++ quoted "type" ++ lit ":" ++ quoted "ping" ++ lit "}".

Definition ping : JSVal := JObj [fld "type" (JStr "ping")].

(** [{"type":"cancel"}] *)
Definition cancel_raw : jsstring :=
  lit "{" ++ quoted "type" ++ lit ":" ++ quoted "cancel" ++ lit "}".

Definition cancel : JSVal := JObj [fld "type" (JStr "cancel")].

(** [{"query":"   "}] *)
Definition blank_query_raw : jsstring :=
  lit "{" ++ quoted "query" ++ lit ":" ++ quoted "   " ++ lit "}".

Definition blank_query : JSVal := JObj [fld "query" (JStr "   ")].

(** [{"query":"hi"}] and [{"query":"again"}] *)
Definition hi_raw : jsstring :=
  lit "{" ++ quoted "query" ++ lit ":" ++ quoted "hi" ++ lit "}".

Definition hi : JSVal := JObj [fld "query" (JStr "hi")].

Definition again_raw : jsstring :=
  lit "{" ++ quoted "query" ++ lit ":" ++ quoted "again" ++ lit "}".

Definition again : JSVal := JObj [fld "query" (JStr "again")].

(** The raw text [null]; [JSON.parse] gives [null]. *)
Definition null_raw : jsstring := lit "null".

(** A connection with one run in flight: [connect] after a first query. *)
Definition busy : Conn := mkConn true (Some 0) 1 [0] 1.

(** Updates as the engine yields them. *)
Definition node_start_update : StreamUpdate :=
  mkUpdate (JStr "node_start") (JStr "search") JUndefined JUndefined.

Definition search_complete_update : StreamUpdate :=
  mkUpdate (JStr "node_complete") (JStr "search") JUndefined
           (JObj [fld "searchResults" (JArr [JStr "r1"; JStr "r2"])]).

Definition complete_update : StreamUpdate :=
  mkUpdate (JStr "complete") JUndefined JUndefined
           (JObj [fld "finalOutput" (JStr "4");
                  fld "expertsOutput" (JArr [JStr "e1"]);
                  fld "searchResults" (JArr [JStr "r1"; JStr "r2"])]).

(** The end-to-end scenario of the specification (8.7): one round, two
    experts, a search with three results. *)
Definition two_plus_two : nat -> Engine.RoundEnv :=
  fun _ =>
    Engine.mkRound None (Some [JStr "r1"; JStr "r2"; JStr "r3"])
      [Engine.mkExpert 2 false (JStr "four");
       Engine.mkExpert 1 false (JStr "4")]
      (Some (JStr "2+2=4", false)).

(** Every expert fails (8.9). *)
Definition all_experts_fail : nat -> Engine.RoundEnv :=
  fun _ =>
    Engine.mkRound None (Some [JStr "r1"])
      [Engine.mkExpert 1 true (JStr "timeout");
       Engine.mkExpert 2 true (JStr "timeout")]
      (Some (JStr "unused", true)).

(** [abort()] arrives while the experts are running, after the first of
    them has settled. *)
Definition aborted_in_fanout : nat -> Engine.RoundEnv :=
  fun _ =>
    Engine.mkRound (Some 4) (Some [JStr "r1"])
      [Engine.mkExpert 1 false (JStr "one");
       Engine.mkExpert 2 false (JStr "two")]
      (Some (JStr "unused", true)).

Definition one_round : Engine.RunConfig :=
  Engine.mkRunConfig 1 None None None None.

(** Two configs that differ in key and endpoint. *)
Definition colon_in_key : LLMFactory.LLMConfig :=
  LLMFactory.mkConfig None (Some (lit "a:b")) (Some (lit "c")) None.

Definition colon_in_url : LLMFactory.LLMConfig :=
  LLMFactory.mkConfig None (Some (lit "a")) (Some (lit "b:c")) None.

(** A process-wide config without a key. *)
Definition no_key : LLMFactory.LLMConfig :=
  LLMFactory.mkConfig (Some (lit "openai")) None None (Some (lit "gpt-4o")).

(** The config whose key is the one letter of code [65 + i]. *)
Definition numbered (i : nat) : LLMFactory.LLMConfig :=
  LLMFactory.mkConfig None (Some [N.of_nat (65 + i)]) None None.

(** [createLLM] called for the first [n] numbered configs. *)
Definition numbered_calls (n : nat) : list LLMFactory.Call :=
  map (fun i => LLMFactory.CreateLLM no_key (Some (numbered i))) (seq 0 n).

(** A busy connection whose socket is closing. *)
Definition busy_closing : Conn := mkConn true (Some 0) 2 [0] 1.

(** Configs without a colon in provider, key or endpoint; the second names
    the default provider. *)
Definition plain_config : LLMFactory.LLMConfig :=
  LLMFactory.mkConfig None (Some (lit "sk-1")) None (Some (lit "gpt-4o")).

Definition plain_config_openai : LLMFactory.LLMConfig :=
  LLMFactory.mkConfig (Some (lit "openai")) (Some (lit "sk-1")) None
    (Some (lit "gpt-4o")).

(** A start that fails when the server is created, and one that succeeds. *)
Definition server_fails : Index.StartEnv := Index.mkStartEnv true false true.

Definition all_starts : Index.StartEnv := Index.mkStartEnv true true true.

End Samples.

(* ================================================================== *)
(** * Properties *)
(* ================================================================== *)

(** ** Strings and objects *)

Lemma jsstring_eqb_refl (s : jsstring) : jsstring_eqb s s = true.
Proof.
  induction s as [|u r IH]; simpl; [reflexivity|].
  now rewrite N.eqb_refl, IH.
Qed.

Lemma jsstring_eqb_eq (a b : jsstring) : jsstring_eqb a b = true <-> a = b.
Proof.
  split.
  - revert b; induction a as [|x a IH]; destruct b as [|y b]; simpl;
      try discriminate; [reflexivity|].
    intros H. apply andb_true_iff in H as [Hx Hr].
    apply N.eqb_eq in Hx. now rewrite Hx, (IH b Hr).
  - intros ->. apply jsstring_eqb_refl.
Qed.

Lemma jsstring_eqb_neq (a b : jsstring) : jsstring_eqb a b = false <-> a <> b.
Proof.
  split.
  - intros H E. apply jsstring_eqb_eq in E. congruence.
  - intros H. destruct (jsstring_eqb a b) eqn:E; [|reflexivity].
    apply jsstring_eqb_eq in E. contradiction.
Qed.

(** ** What the ['message'] handler can do *)

Ltac handler_cases :=
  repeat match goal with
  | H : context [if ?b then _ else _] |- _ => destruct b eqn:?
  | H : context [match ?x with _ => _ end] |- _ => destruct x eqn:?
  | |- context [if ?b then _ else _] => destruct b eqn:?
  | |- context [match ?x with _ => _ end] => destruct x eqn:?
  end.

Section OnMessage.

Import ChatWebSocket.

(** The handler calls the engine only on the path through every guard, and
    then it constructs one engine and streams the trimmed query with the
    config of lines 92-96. *)
Lemma on_message_engine_call c msgStr parsed ctor a :
  In a (snd (on_message c msgStr parsed ctor)) ->
  is_engine_call a = true ->
  exists data,
    parsed = Some data
    /\ (js_length msgStr <= MAX_MESSAGE_SIZE)%N
    /\ nullish data = false
    /\ is_str (prop data "type") "ping" = false
    /\ is_str (prop data "type") "cancel" = false
    /\ isProcessing c = false
    /\ query_of data <> []
    /\ (js_length (query_of data) <= 50000)%N
    /\ ctor = CtorOk
    /\ on_message c msgStr parsed ctor =
         (mkConn true (Some (nextEngine c)) (readyState c)
                 (nextEngine c :: running c) (S (nextEngine c)),
          [NewEngine (nextEngine c);
           Stream (nextEngine c) (query_of data) (buildStreamConfig data)]).
Proof.
  unfold on_message, catch_block, safeSend.
  intros Hin Ha.
  destruct (MAX_MESSAGE_SIZE <? js_length msgStr)%N eqn:Hsize.
  { handler_cases; simpl in Hin; intuition (subst; discriminate). }
  apply N.ltb_ge in Hsize.
  destruct parsed as [data|].
  2:{ handler_cases; simpl in Hin; intuition (subst; discriminate). }
  destruct (nullish data) eqn:Hnull.
  { handler_cases; simpl in Hin; intuition (subst; discriminate). }
  destruct (is_str (prop data "type") "ping") eqn:Hping.
  { simpl in Hin; intuition (subst; discriminate). }
  destruct (is_str (prop data "type") "cancel") eqn:Hcancel.
  { handler_cases; simpl in Hin; intuition (subst; discriminate). }
  destruct (isProcessing c) eqn:Hproc.
  { handler_cases; simpl in Hin; intuition (subst; discriminate). }
  destruct (query_of data) as [|u q] eqn:Hq.
  { handler_cases; simpl in Hin; intuition (subst; discriminate). }
  destruct (50000 <? js_length (u :: q))%N eqn:Hlen.
  { handler_cases; simpl in Hin; intuition (subst; discriminate). }
  apply N.ltb_ge in Hlen.
  destruct ctor as [|error].
  2:{ handler_cases; simpl in Hin; intuition (subst; discriminate). }
  exists data. rewrite Hq.
  repeat split; try assumption; try discriminate.
Qed.

End OnMessage.

(** ** The transport's stream config *)

Section StreamConfig.

Import ChatWebSocket.

Variable data : JSVal.

Lemma maxRounds_or_1 :
  prop (buildStreamConfig data) "maxRounds"
  = js_or (prop data "maxRounds") (JNum 1%float).
Proof.
  unfold buildStreamConfig.
  destruct (truthy (prop data "model")), (truthy (prop data "apiKey")),
    (truthy (prop data "baseUrl")), (truthy (prop data "fileContext"));
    reflexivity.
Qed.

Lemma config_keys :
  has_key "defaultModel" (buildStreamConfig data) = truthy (prop data "model")
  /\ has_key "apiKey" (buildStreamConfig data) = truthy (prop data "apiKey")
  /\ has_key "baseUrl" (buildStreamConfig data) = truthy (prop data "baseUrl")
  /\ has_key "fileContext" (buildStreamConfig data)
     = truthy (prop data "fileContext").
Proof.
  unfold buildStreamConfig.
  destruct (truthy (prop data "model")), (truthy (prop data "apiKey")),
    (truthy (prop data "baseUrl")), (truthy (prop data "fileContext"));
    repeat split; reflexivity.
Qed.

Lemma config_values :
  (truthy (prop data "model") = true ->
     prop (buildStreamConfig data) "defaultModel" = prop data "model")
  /\ (truthy (prop data "apiKey") = true ->
        prop (buildStreamConfig data) "apiKey" = prop data "apiKey")
  /\ (truthy (prop data "baseUrl") = true ->
        prop (buildStreamConfig data) "baseUrl" = prop data "baseUrl")
  /\ (truthy (prop data "fileContext") = true ->
        prop (buildStreamConfig data) "fileContext" = prop data "fileContext").
Proof.
  unfold buildStreamConfig.
  destruct (truthy (prop data "model")), (truthy (prop data "apiKey")),
    (truthy (prop data "baseUrl")), (truthy (prop data "fileContext"));
    repeat split; intros; try discriminate; reflexivity.
Qed.

Lemma js_or_one_truthy v : truthy (js_or v (JNum 1%float)) = true.
Proof. unfold js_or. destruct (truthy v) eqn:E; [exact E | reflexivity]. Qed.

(** The config as an object literal: [maxRounds], then one property for
    each truthy field of the message, in the order of the assignments. *)
Lemma buildStreamConfig_literal :
  buildStreamConfig data =
  JObj (fld "maxRounds" (js_or (prop data "maxRounds") (JNum 1%float))
        :: (if truthy (prop data "model")
            then [fld "defaultModel" (prop data "model")] else [])
        ++ (if truthy (prop data "apiKey")
            then [fld "apiKey" (prop data "apiKey")] else [])
        ++ (if truthy (prop data "baseUrl")
            then [fld "baseUrl" (prop data "baseUrl")] else [])
        ++ (if truthy (prop data "fileContext")
            then [fld "fileContext" (prop data "fileContext")] else [])).
Proof.
  unfold buildStreamConfig.
  destruct (truthy (prop data "model")), (truthy (prop data "apiKey")),
    (truthy (prop data "baseUrl")), (truthy (prop data "fileContext"));
    reflexivity.
Qed.

Lemma lookup_field_In k fs v :
  lookup_field k fs = Some v -> exists k', In (k', v) fs.
Proof.
  induction fs as [|[k' x] r IH]; simpl; [discriminate|].
  destruct (jsstring_eqb k k').
  - intros [= ->]. exists k'. now left.
  - intros H. destruct (IH H) as [k'' Hin]. exists k''. now right.
Qed.

Lemma has_key_prop k fs :
  has_key k (JObj fs) = true ->
  exists k', In (k', prop (JObj fs) k) fs.
Proof.
  unfold has_key, prop.
  destruct (lookup_field k fs) as [v|] eqn:Hl; [|discriminate].
  intros _. exact (lookup_field_In _ _ _ Hl).
Qed.

(** Every own property of the config holds a truthy value. *)
Lemma config_entries_truthy k :
  has_key k (buildStreamConfig data) = true ->
  truthy (prop (buildStreamConfig data) k) = true.
Proof.
  pose proof (js_or_one_truthy (prop data "maxRounds")) as Hm.
  rewrite buildStreamConfig_literal.
  intros Hk. apply has_key_prop in Hk as [k' Hin].
  revert Hin. generalize (prop (JObj
    (fld "maxRounds" (js_or (prop data "maxRounds") (JNum 1%float))
     :: (if truthy (prop data "model")
         then [fld "defaultModel" (prop data "model")] else [])
     ++ (if truthy (prop data "apiKey")
         then [fld "apiKey" (prop data "apiKey")] else [])
     ++ (if truthy (prop data "baseUrl")
         then [fld "baseUrl" (prop data "baseUrl")] else [])
     ++ (if truthy (prop data "fileContext")
         then [fld "fileContext" (prop data "fileContext")] else []))) k).
  intros v Hin.
  destruct (truthy (prop data "model")) eqn:H1,
    (truthy (prop data "apiKey")) eqn:H2,
    (truthy (prop data "baseUrl")) eqn:H3,
    (truthy (prop data "fileContext")) eqn:H4;
    unfold fld in Hin; cbn [app In] in Hin;
    repeat match type of Hin with
    | _ \/ _ => destruct Hin as [Hin|Hin]
    | (_, _) = (_, _) => injection Hin as _ <-; assumption
    | False => contradiction
    end.
Qed.

End StreamConfig.

(** C2, as amended: the config handed to [engine.stream] has [maxRounds]
    equal to the message's [maxRounds] when that is truthy and 1 otherwise;
    [defaultModel], [apiKey], [baseUrl] and [fileContext] are keys of the
    config exactly when the message's [model], [apiKey], [baseUrl] and
    [fileContext] are truthy, and then hold the message's values; no key of
    the config holds [undefined] or [null]. *)
Theorem stream_config_has_truthy_fields
    c msgStr parsed ctor e query streamConfig :
  In (ChatWebSocket.Stream e query streamConfig)
     (snd (ChatWebSocket.on_message c msgStr parsed ctor)) ->
  exists data,
    parsed = Some data
    /\ prop streamConfig "maxRounds"
       = (if truthy (prop data "maxRounds")
          then prop data "maxRounds" else JNum 1%float)
    /\ (has_key "defaultModel" streamConfig = true
        <-> truthy (prop data "model") = true)
    /\ (has_key "apiKey" streamConfig = true
        <-> truthy (prop data "apiKey") = true)
    /\ (has_key "baseUrl" streamConfig = true
        <-> truthy (prop data "baseUrl") = true)
    /\ (has_key "fileContext" streamConfig = true
        <-> truthy (prop data "fileContext") = true)
    /\ (has_key "defaultModel" streamConfig = true ->
        prop streamConfig "defaultModel" = prop data "model")
    /\ (has_key "apiKey" streamConfig = true ->
        prop streamConfig "apiKey" = prop data "apiKey")
    /\ (has_key "baseUrl" streamConfig = true ->
        prop streamConfig "baseUrl" = prop data "baseUrl")
    /\ (has_key "fileContext" streamConfig = true ->
        prop streamConfig "fileContext" = prop data "fileContext")
    /\ (forall k, has_key k streamConfig = true ->
                  nullish (prop streamConfig k) = false).
Proof.
  intros Hin.
  destruct (on_message_engine_call _ _ _ _ _ Hin eq_refl)
    as (data & Hp & _ & _ & _ & _ & _ & _ & _ & _ & Heq).
  rewrite Heq in Hin. simpl in Hin.
  destruct Hin as [Hin|[Hin|[]]]; [discriminate|].
  injection Hin as _ _ <-.
  exists data. split; [exact Hp|].
  destruct (config_keys data) as (K1 & K2 & K3 & K4).
  destruct (config_values data) as (V1 & V2 & V3 & V4).
  rewrite K1, K2, K3, K4.
  split; [apply maxRounds_or_1|].
  repeat split; auto.
  intros k Hk. apply config_entries_truthy in Hk.
  destruct (prop (ChatWebSocket.buildStreamConfig data) k);
    simpl in *; congruence.
Qed.

Lemma stream_config_has_truthy_fields_witness :
  In (ChatWebSocket.Stream 0 (lit "hi")
        (JObj [fld "maxRounds" (JNum 3%float);
               fld "defaultModel" (JStr "gpt-4o")]))
     (snd (ChatWebSocket.on_message ChatWebSocket.connect
             Samples.full_query_raw (Some Samples.full_query)
             ChatWebSocket.CtorOk))
  /\ exists data,
       Some Samples.full_query = Some data
       /\ prop (JObj [fld "maxRounds" (JNum 3%float);
                      fld "defaultModel" (JStr "gpt-4o")]) "maxRounds"
          = (if truthy (prop data "maxRounds")
             then prop data "maxRounds" else JNum 1%float).
Proof.
  assert (H : In (ChatWebSocket.Stream 0 (lit "hi")
                    (JObj [fld "maxRounds" (JNum 3%float);
                           fld "defaultModel" (JStr "gpt-4o")]))
                 (snd (ChatWebSocket.on_message ChatWebSocket.connect
                         Samples.full_query_raw (Some Samples.full_query)
                         ChatWebSocket.CtorOk))).
  { vm_compute. right. left. reflexivity. }
  split; [exact H|].
  destruct (stream_config_has_truthy_fields _ _ _ _ _ _ _ H)
    as (data & Hp & Hm & _).
  exists data. split; [exact Hp | exact Hm].
Defined.

(** C2 as stated fails: in a query whose [model] is the empty string the
    field [model] is present, yet the config streamed for it has no
    [defaultModel] key. *)
Lemma present_model_field_not_in_config :
  has_key "model" Samples.empty_model = true
  /\ ChatWebSocket.on_message ChatWebSocket.connect Samples.empty_model_raw
       (Some Samples.empty_model) ChatWebSocket.CtorOk
     = (ChatWebSocket.mkConn true (Some 0) 1 [0] 1,
        [ChatWebSocket.NewEngine 0;
         ChatWebSocket.Stream 0 (lit "hi")
           (JObj [fld "maxRounds" (JNum 1%float)])])
  /\ has_key "defaultModel" (JObj [fld "maxRounds" (JNum 1%float)]) = false.
Proof. repeat split; vm_compute; reflexivity. Qed.

(** ** Input errors *)

Lemma is_str_eq v s : is_str v s = true -> v = JStr s.
Proof.
  destruct v; simpl; try discriminate.
  intros H. apply jsstring_eqb_eq in H. now subst.
Qed.

Lemma error_event_shape message :
  ChatWebSocket.is_error_event (ChatWebSocket.error_event message) = true.
Proof. reflexivity. Qed.

(** C4, as amended: a message whose raw text exceeds the size limit, or one
    that is neither a ping nor a cancel command and whose query is missing,
    not a string, trims to the empty string or exceeds 50,000 characters
    after trimming, gets exactly one event of the Error wire shape, handed to
    [safeSend] (which sends it when the socket is open); the engine is not
    invoked and nothing else is produced. *)
Theorem invalid_message_gets_error_event c msgStr parsed ctor :
  (ChatWebSocket.MAX_MESSAGE_SIZE < js_length msgStr)%N
  \/ (exists data,
        parsed = Some data
        /\ is_str (prop data "type") "ping" = false
        /\ is_str (prop data "type") "cancel" = false
        /\ ((forall s, prop data "query" <> JStr s)
            \/ exists s, prop data "query" = JStr s
                         /\ (trim s = [] \/ (50000 < js_length (trim s))%N))) ->
  exists message,
    snd (ChatWebSocket.on_message c msgStr parsed ctor)
    = ChatWebSocket.safeSend c (ChatWebSocket.error_event message)
    /\ ChatWebSocket.is_error_event (ChatWebSocket.error_event message) = true
    /\ (forall a,
          In a (snd (ChatWebSocket.on_message c msgStr parsed ctor)) ->
          ChatWebSocket.is_engine_call a = false)
    /\ ChatWebSocket.running
         (fst (ChatWebSocket.on_message c msgStr parsed ctor))
       = ChatWebSocket.running c.
Proof.
  intros H.
  assert (Hout : exists message,
             snd (ChatWebSocket.on_message c msgStr parsed ctor)
             = ChatWebSocket.safeSend c (ChatWebSocket.error_event message)
             /\ ChatWebSocket.running
                  (fst (ChatWebSocket.on_message c msgStr parsed ctor))
                = ChatWebSocket.running c).
  { unfold ChatWebSocket.on_message, ChatWebSocket.catch_block.
    destruct (ChatWebSocket.MAX_MESSAGE_SIZE <? js_length msgStr)%N eqn:Hsize;
      [eexists; split; reflexivity|].
    destruct H as [H|(data & -> & Hping & Hcancel & Hq)];
      [apply N.ltb_lt in H; congruence|].
    destruct (nullish data); [eexists; split; reflexivity|].
    rewrite Hping, Hcancel.
    destruct (ChatWebSocket.isProcessing c); [eexists; split; reflexivity|].
    assert (Hbad : ChatWebSocket.query_of data = []
                   \/ (50000 <? js_length (ChatWebSocket.query_of data))%N = true).
    { unfold ChatWebSocket.query_of.
      destruct Hq as [Hq|(s & -> & [Hs|Hs])].
      - left. destruct (prop data "query"); try reflexivity.
        exfalso. eapply Hq. reflexivity.
      - now left.
      - right. now apply N.ltb_lt. }
    destruct (ChatWebSocket.query_of data) as [|u q];
      [eexists; split; reflexivity|].
    destruct Hbad as [Hbad|Hbad]; [discriminate|]. rewrite Hbad.
    eexists; split; reflexivity. }
  destruct Hout as (message & Hsnd & Hrun).
  exists message. repeat split; try assumption.
  intros a Ha. rewrite Hsnd in Ha. unfold ChatWebSocket.safeSend in Ha.
  destruct (ChatWebSocket.readyState c =? 1)%N; simpl in Ha;
    [destruct Ha as [<-|[]]; reflexivity | contradiction].
Qed.

Lemma invalid_message_gets_error_event_witness :
  exists message,
    snd (ChatWebSocket.on_message ChatWebSocket.connect Samples.blank_query_raw
           (Some Samples.blank_query) ChatWebSocket.CtorOk)
    = [ChatWebSocket.SocketSend (ChatWebSocket.error_event message)]
    /\ message = lit "Empty query".
Proof.
  destruct (invalid_message_gets_error_event ChatWebSocket.connect
              Samples.blank_query_raw (Some Samples.blank_query)
              ChatWebSocket.CtorOk)
    as (message & Hsnd & _).
  - right. exists Samples.blank_query.
    split; [reflexivity|]. split; [reflexivity|]. split; [reflexivity|].
    right. exists (lit "   "). split; [reflexivity|]. left. reflexivity.
  - exists message. split; [exact Hsnd|].
    vm_compute in Hsnd. injection Hsnd as Hm. now rewrite <- Hm.
Defined.

(** C4 as stated fails.  [{"type":"ping"}] has no query field, and the
    transport answers it with a pong, which is no Error event;
    [{"type":"cancel"}] has none either and gets no answer at all; and on a
    socket that is closing a blank query gets no answer, the event is
    dropped. *)
Lemma commands_and_closed_sockets_get_no_error_event :
  (prop Samples.ping "query" = JUndefined
   /\ ChatWebSocket.on_message ChatWebSocket.connect Samples.ping_raw
        (Some Samples.ping) ChatWebSocket.CtorOk
      = (ChatWebSocket.connect,
         [ChatWebSocket.SocketSend (JObj [fld "type" (JStr "pong")])])
   /\ ChatWebSocket.is_error_event (JObj [fld "type" (JStr "pong")]) = false)
  /\ (prop Samples.cancel "query" = JUndefined
      /\ ChatWebSocket.on_message ChatWebSocket.connect Samples.cancel_raw
           (Some Samples.cancel) ChatWebSocket.CtorOk
         = (ChatWebSocket.connect, []))
  /\ ChatWebSocket.on_message
       (ChatWebSocket.set_readyState ChatWebSocket.connect 2)
       Samples.blank_query_raw (Some Samples.blank_query) ChatWebSocket.CtorOk
     = (ChatWebSocket.set_readyState ChatWebSocket.connect 2, []).
Proof. repeat split; vm_compute; reflexivity. Qed.

(** ** Wire shapes *)

Section WireShapes.

Import ChatWebSocket.

Variable update : StreamUpdate.

Lemma wire_node_start :
  is_str (u_type update) "node_start" = true ->
  wire_event update =
  Some (JObj [fld "type" (JStr "state_update");
              fld "node" (u_node update);
              fld "status" (JStr "started");
              fld "data" (if truthy (u_data update)
                          then u_data update else JObj [])]).
Proof. intros H. unfold wire_event. now rewrite H. Qed.

Lemma wire_expert_complete :
  is_str (u_type update) "expert_complete" = true ->
  wire_event update =
  Some (JObj [fld "type" (JStr "expert_complete");
              fld "data" (u_data update)]).
Proof.
  intros H. unfold wire_event. rewrite H.
  apply is_str_eq in H. now rewrite H.
Qed.

Lemma wire_node_complete :
  is_str (u_type update) "node_complete" = true ->
  wire_event update =
  Some (JObj ([fld "type" (JStr "state_update");
               fld "node" (u_node update);
               fld "status" (JStr "completed")]
              ++ (if is_str (u_node update) "search"
                     && truthy (opt_prop (u_state update) "searchResults")
                  then [fld "searchResults"
                            (prop (u_state update) "searchResults")]
                  else []))).
Proof.
  intros H. unfold wire_event. rewrite H.
  apply is_str_eq in H. rewrite H. cbn [is_str].
  change (jsstring_eqb "node_complete" "node_start") with false.
  change (jsstring_eqb "node_complete" "expert_complete") with false.
  cbv iota.
  destruct (is_str (u_node update) "search"
            && truthy (opt_prop (u_state update) "searchResults"));
    reflexivity.
Qed.

Lemma wire_complete :
  is_str (u_type update) "complete" = true ->
  wire_event update =
  Some (JObj [fld "type" (JStr "complete");
              fld "data"
                (JObj [fld "final_output"
                         (opt_prop (u_state update) "finalOutput");
                       fld "experts"
                         (opt_prop (u_state update) "expertsOutput");
                       fld "searchResults"
                         (opt_prop (u_state update) "searchResults")])]).
Proof.
  intros H. unfold wire_event. rewrite H.
  apply is_str_eq in H. now rewrite H.
Qed.

End WireShapes.

(** C5: while the socket is open, an update of the stream is sent as exactly
    one payload of the specified shape: [node_start] as
    [{type: "state_update", node, status: "started", data}] with [{}] for a
    falsy [data]; [expert_complete] as [{type: "expert_complete", data}];
    [node_complete] as [{type: "state_update", node, status: "completed"}]
    with [searchResults] appended exactly when the node is ["search"] and the
    update's state carries (truthy) [searchResults]; [complete] as
    [{type: "complete", data: {final_output, experts, searchResults}}] read
    from the update's state. *)
Theorem update_wire_shapes c e update :
  ChatWebSocket.in_flight c e = true ->
  ChatWebSocket.readyState c = 1%N ->
  (is_str (ChatWebSocket.u_type update) "node_start" = true ->
   ChatWebSocket.step c (ChatWebSocket.Yield e update) =
   (c, [ChatWebSocket.SocketSend
          (JObj [fld "type" (JStr "state_update");
                 fld "node" (ChatWebSocket.u_node update);
                 fld "status" (JStr "started");
                 fld "data" (if truthy (ChatWebSocket.u_data update)
                             then ChatWebSocket.u_data update
                             else JObj [])])]))
  /\ (is_str (ChatWebSocket.u_type update) "expert_complete" = true ->
      ChatWebSocket.step c (ChatWebSocket.Yield e update) =
      (c, [ChatWebSocket.SocketSend
             (JObj [fld "type" (JStr "expert_complete");
                    fld "data" (ChatWebSocket.u_data update)])]))
  /\ (is_str (ChatWebSocket.u_type update) "node_complete" = true ->
      (is_str (ChatWebSocket.u_node update) "search" = true ->
       truthy (opt_prop (ChatWebSocket.u_state update) "searchResults") = true ->
       ChatWebSocket.step c (ChatWebSocket.Yield e update) =
       (c, [ChatWebSocket.SocketSend
              (JObj [fld "type" (JStr "state_update");
                     fld "node" (ChatWebSocket.u_node update);
                     fld "status" (JStr "completed");
                     fld "searchResults"
                       (prop (ChatWebSocket.u_state update) "searchResults")])]))
      /\ (is_str (ChatWebSocket.u_node update) "search" = false
          \/ truthy (opt_prop (ChatWebSocket.u_state update) "searchResults")
             = false ->
          ChatWebSocket.step c (ChatWebSocket.Yield e update) =
          (c, [ChatWebSocket.SocketSend
                 (JObj [fld "type" (JStr "state_update");
                        fld "node" (ChatWebSocket.u_node update);
                        fld "status" (JStr "completed")])])))
  /\ (is_str (ChatWebSocket.u_type update) "complete" = true ->
      ChatWebSocket.step c (ChatWebSocket.Yield e update) =
      (c, [ChatWebSocket.SocketSend
             (JObj [fld "type" (JStr "complete");
                    fld "data"
                      (JObj [fld "final_output"
                               (opt_prop (ChatWebSocket.u_state update)
                                         "finalOutput");
                             fld "experts"
                               (opt_prop (ChatWebSocket.u_state update)
                                         "expertsOutput");
                             fld "searchResults"
                               (opt_prop (ChatWebSocket.u_state update)
                                         "searchResults")])])])).
Proof.
  intros Hin Hopen.
  assert (Hstep : ChatWebSocket.step c (ChatWebSocket.Yield e update) =
                  (c, match ChatWebSocket.wire_event update with
                      | Some payload => [ChatWebSocket.SocketSend payload]
                      | None => []
                      end)).
  { unfold ChatWebSocket.step, ChatWebSocket.on_update, ChatWebSocket.safeSend.
    rewrite Hin, Hopen. reflexivity. }
  rewrite Hstep. repeat split.
  - intros H. now rewrite (wire_node_start _ H).
  - intros H. now rewrite (wire_expert_complete _ H).
  - intros Hs Ht. rewrite (wire_node_complete _ H), Hs, Ht. reflexivity.
  - intros Hno. rewrite (wire_node_complete _ H).
    destruct Hno as [-> | ->]; [|rewrite andb_false_r]; reflexivity.
  - intros H. now rewrite (wire_complete _ H).
Qed.

Lemma update_wire_shapes_witness :
  ChatWebSocket.step Samples.busy
    (ChatWebSocket.Yield 0 Samples.search_complete_update)
  = (Samples.busy,
     [ChatWebSocket.SocketSend
        (JObj [fld "type" (JStr "state_update");
               fld "node" (JStr "search");
               fld "status" (JStr "completed");
               fld "searchResults" (JArr [JStr "r1"; JStr "r2"])])])
  /\ ChatWebSocket.step Samples.busy
       (ChatWebSocket.Yield 0 Samples.complete_update)
     = (Samples.busy,
        [ChatWebSocket.SocketSend
           (JObj [fld "type" (JStr "complete");
                  fld "data"
                    (JObj [fld "final_output" (JStr "4");
                           fld "experts" (JArr [JStr "e1"]);
                           fld "searchResults"
                             (JArr [JStr "r1"; JStr "r2"])])])]).
Proof.
  split.
  - apply (update_wire_shapes Samples.busy 0 Samples.search_complete_update);
      reflexivity.
  - apply (update_wire_shapes Samples.busy 0 Samples.complete_update);
      reflexivity.
Defined.

(** ** One run per session *)

Section Session.

Import ChatWebSocket.

Example busy_after_first_query :
  fst (on_message connect Samples.hi_raw (Some Samples.hi) CtorOk)
  = Samples.busy.
Proof. reflexivity. Qed.

(** The guard of lines 66-69: a busy session answers a query with an error
    and leaves the engine alone. *)
Lemma busy_session_rejects_query c msgStr data ctor :
  (js_length msgStr <= MAX_MESSAGE_SIZE)%N ->
  nullish data = false ->
  is_str (prop data "type") "ping" = false ->
  is_str (prop data "type") "cancel" = false ->
  isProcessing c = true ->
  on_message c msgStr (Some data) ctor =
  (c, safeSend c (error_event
        "Already processing a query. Please wait or send cancel.")).
Proof.
  intros Hsize Hnull Hping Hcancel Hbusy. unfold on_message.
  apply N.ltb_ge in Hsize. now rewrite Hsize, Hnull, Hping, Hcancel, Hbusy.
Qed.

Lemma in_flight_single c e e' :
  running c = [e'] -> in_flight c e = true -> e = e'.
Proof.
  unfold in_flight. intros ->. simpl. rewrite orb_false_r.
  apply Nat.eqb_eq.
Qed.

Lemma leave_single c e :
  running c = [e] -> running (leave c e) = [].
Proof. intros H. unfold leave. simpl. rewrite H. simpl. now rewrite Nat.eqb_refl. Qed.

Lemma in_flight_nil c e : running c = [] -> in_flight c e = false.
Proof. unfold in_flight. now intros ->. Qed.

Lemma on_message_plain_ok c msgStr parsed ctor :
  session_ok c ->
  plain (Message msgStr parsed ctor) = true ->
  session_ok (fst (on_message c msgStr parsed ctor)).
Proof.
  intros Hok Hplain. unfold on_message, catch_block.
  destruct (MAX_MESSAGE_SIZE <? js_length msgStr)%N; [exact Hok|].
  destruct parsed as [data|]; [|exact Hok].
  simpl in Hplain. apply negb_true_iff in Hplain. rewrite Hplain.
  destruct (is_str (prop data "type") "ping"); [exact Hok|].
  destruct (is_str (prop data "type") "cancel"); [exact Hok|].
  destruct (isProcessing c) eqn:Hbusy; [exact Hok|].
  destruct (query_of data) as [|u q]; [exact Hok|].
  destruct (50000 <? js_length (u :: q))%N; [exact Hok|].
  unfold session_ok in Hok.
  destruct (running c) as [|e0 [|e1 r]] eqn:Hrun;
    [|destruct Hok; congruence|contradiction].
  destruct ctor; unfold session_ok; simpl; rewrite Hrun; auto.
Qed.

Lemma step_plain_ok c i :
  session_ok c -> plain i = true -> session_ok (fst (step c i)).
Proof.
  intros Hok Hplain.
  destruct i as [msgStr parsed ctor|e update|e|e error|rs|];
    cbn [step].
  - now apply on_message_plain_ok.
  - destruct (in_flight c e) eqn:Hin; [|exact Hok].
    unfold on_update. destruct (negb (readyState c =? 1)%N); [|exact Hok].
    unfold session_ok in Hok |- *.
    destruct (running c) as [|e0 [|e1 r]] eqn:Hrun;
      [now rewrite (in_flight_nil _ _ Hrun) in Hin| |contradiction].
    assert (e = e0) by (eapply in_flight_single; eauto). subst e0.
    cbn [fst]. rewrite leave_single by exact Hrun. now split.
  - destruct (in_flight c e) eqn:Hin; [|exact Hok].
    unfold on_done. unfold session_ok in Hok |- *.
    destruct (running c) as [|e0 [|e1 r]] eqn:Hrun;
      [now rewrite (in_flight_nil _ _ Hrun) in Hin| |contradiction].
    assert (e = e0) by (eapply in_flight_single; eauto). subst e0.
    cbn [fst]. rewrite leave_single by exact Hrun. now split.
  - destruct (in_flight c e) eqn:Hin; [|exact Hok].
    unfold on_throw, catch_block. unfold session_ok in Hok |- *.
    destruct (running c) as [|e0 [|e1 r]] eqn:Hrun;
      [now rewrite (in_flight_nil _ _ Hrun) in Hin| |contradiction].
    assert (e = e0) by (eapply in_flight_single; eauto). subst e0.
    cbn [fst]. rewrite leave_single by exact Hrun. now split.
  - exact Hok.
  - unfold on_close.
    destruct (currentEngine c) as [e|] eqn:Hcur; [|exact Hok].
    unfold session_ok in Hok |- *. rewrite Hcur in Hok.
    cbn [fst set_session running isProcessing currentEngine].
    destruct (running c) as [|e0 [|e1 r]]; [destruct Hok; congruence| |exact Hok].
    destruct Hok as [Hb _]. split; [exact Hb | now right].
Qed.

(** Without a [null] message the guard does its work: whatever the clients
    and the engines do, at most one run is in flight. *)
Lemma one_run_without_null_messages inputs :
  forallb plain inputs = true ->
  session_ok (fst (run connect inputs))
  /\ List.length (running (fst (run connect inputs))) <= 1.
Proof.
  assert (Hgen : forall c, session_ok c -> forallb plain inputs = true ->
                           session_ok (fst (run c inputs))).
  { induction inputs as [|i rest IH]; intros c Hok Hall; [exact Hok|].
    simpl in Hall. apply andb_true_iff in Hall as [Hi Hrest].
    cbn [run]. pose proof (step_plain_ok c i Hok Hi) as Hstep.
    destruct (step c i) as [c1 out1]. cbn [fst] in Hstep.
    specialize (IH c1 Hstep Hrest).
    destruct (run c1 rest) as [c2 out2]. exact IH. }
  intros Hall.
  assert (Hok : session_ok (fst (run connect inputs))).
  { apply Hgen; [|exact Hall]. unfold session_ok. simpl. now split. }
  split; [exact Hok|].
  unfold session_ok in Hok.
  destruct (running (fst (run connect inputs))) as [|e0 [|e1 r]];
    simpl; [lia|lia|contradiction].
Qed.

End Session.

(** C3 fails on the code: a message whose text is [null] makes the handler
    throw on [data.type], and the outer catch (lines 150-151) resets
    [isProcessing] and [currentEngine] while the first run is still in its
    loop.  The query that follows is accepted: a second engine is constructed
    and streamed, and two runs are in flight. *)
Theorem null_message_lets_second_run_start :
  ChatWebSocket.run ChatWebSocket.connect
    [ChatWebSocket.Message Samples.hi_raw (Some Samples.hi) ChatWebSocket.CtorOk;
     ChatWebSocket.Message Samples.null_raw (Some JNull) ChatWebSocket.CtorOk;
     ChatWebSocket.Message Samples.again_raw (Some Samples.again)
       ChatWebSocket.CtorOk]
  = (ChatWebSocket.mkConn true (Some 1) 1 [1; 0] 2,
     [ChatWebSocket.NewEngine 0;
      ChatWebSocket.Stream 0 (lit "hi") (JObj [fld "maxRounds" (JNum 1%float)]);
      ChatWebSocket.SocketSend
        (ChatWebSocket.error_event
           "Cannot read properties of null (reading 'type')");
      ChatWebSocket.NewEngine 1;
      ChatWebSocket.Stream 1 (lit "again")
        (JObj [fld "maxRounds" (JNum 1%float)])]).
Proof. vm_compute. reflexivity. Qed.

(** ** Cancellation *)

Section Cancellation.

Import ChatWebSocket.

(** Lines 57-63: a cancel command aborts the engine [currentEngine] holds
    and sends nothing. *)
Lemma cancel_aborts_current_engine c msgStr data ctor e :
  (js_length msgStr <= MAX_MESSAGE_SIZE)%N ->
  is_str (prop data "type") "cancel" = true ->
  currentEngine c = Some e ->
  on_message c msgStr (Some data) ctor = (c, [Abort e]).
Proof.
  intros Hsize Hcancel Hcur. unfold on_message.
  apply N.ltb_ge in Hsize. rewrite Hsize.
  assert (Hnull : nullish data = false) by (destruct data; trivial; discriminate).
  rewrite Hnull. pose proof (is_str_eq _ _ Hcancel) as Ht.
  rewrite Ht, Hcur. reflexivity.
Qed.

(** Lines 100-104: when the socket is no longer open the loop aborts its
    engine, stops consuming and sends nothing. *)
Lemma closed_socket_aborts_and_stops c e update :
  in_flight c e = true ->
  readyState c <> 1%N ->
  step c (Yield e update)
  = (leave (finally_block c) e, [Abort e; Return e]).
Proof.
  intros Hin Hrs. cbn [step]. rewrite Hin. unfold on_update.
  apply N.eqb_neq in Hrs. now rewrite Hrs.
Qed.

(** Lines 155-162: the close handler aborts the engine [currentEngine]
    holds and sends nothing. *)
Lemma close_aborts_current_engine c e :
  currentEngine c = Some e ->
  step c Close = (set_session c (isProcessing c) None, [Abort e]).
Proof. intros Hcur. cbn [step]. unfold on_close. now rewrite Hcur. Qed.

(** As long as no [null] message has come in, the engine of the run in
    flight is the one [currentEngine] holds, until the close handler drops
    it; so the cancel command reaches the run. *)
Lemma cancel_reaches_the_run inputs e msgStr data ctor :
  forallb plain inputs = true ->
  in_flight (fst (run connect inputs)) e = true ->
  currentEngine (fst (run connect inputs)) <> None ->
  (js_length msgStr <= MAX_MESSAGE_SIZE)%N ->
  is_str (prop data "type") "cancel" = true ->
  snd (on_message (fst (run connect inputs)) msgStr (Some data) ctor)
  = [Abort e].
Proof.
  intros Hall Hin Hcur Hsize Hcancel.
  destruct (one_run_without_null_messages inputs Hall) as [Hok _].
  unfold session_ok in Hok.
  destruct (running (fst (run connect inputs))) as [|e0 [|e1 r]] eqn:Hrun;
    [now rewrite (in_flight_nil _ _ Hrun) in Hin| |contradiction].
  assert (e = e0) by (eapply in_flight_single; eauto). subst e0.
  destruct Hok as [_ [Hc|Hc]]; [|contradiction].
  now rewrite (cancel_aborts_current_engine _ msgStr data ctor e Hsize Hcancel Hc).
Qed.

End Cancellation.

(** C6 fails on the code: after a message whose text is [null] the outer
    catch has set [currentEngine] to [null] although the run is still in its
    loop.  The cancel command and the close handler then find no engine and
    call no [abort()]; the run goes on, and its [complete] update is sent to
    the client that cancelled. *)
Theorem cancel_after_null_message_is_lost :
  ChatWebSocket.run ChatWebSocket.connect
    [ChatWebSocket.Message Samples.hi_raw (Some Samples.hi) ChatWebSocket.CtorOk;
     ChatWebSocket.Message Samples.null_raw (Some JNull) ChatWebSocket.CtorOk;
     ChatWebSocket.Message Samples.cancel_raw (Some Samples.cancel)
       ChatWebSocket.CtorOk;
     ChatWebSocket.Yield 0 Samples.complete_update]
  = (ChatWebSocket.mkConn false None 1 [0] 1,
     [ChatWebSocket.NewEngine 0;
      ChatWebSocket.Stream 0 (lit "hi") (JObj [fld "maxRounds" (JNum 1%float)]);
      ChatWebSocket.SocketSend
        (ChatWebSocket.error_event
           "Cannot read properties of null (reading 'type')");
      ChatWebSocket.SocketSend
        (JObj [fld "type" (JStr "complete");
               fld "data"
                 (JObj [fld "final_output" (JStr "4");
                        fld "experts" (JArr [JStr "e1"]);
                        fld "searchResults" (JArr [JStr "r1"; JStr "r2"])])])])
  /\ ChatWebSocket.run ChatWebSocket.connect
       [ChatWebSocket.Message Samples.hi_raw (Some Samples.hi)
          ChatWebSocket.CtorOk;
        ChatWebSocket.Message Samples.null_raw (Some JNull)
          ChatWebSocket.CtorOk;
        ChatWebSocket.Close]
     = (ChatWebSocket.mkConn false None 1 [0] 1,
        [ChatWebSocket.NewEngine 0;
         ChatWebSocket.Stream 0 (lit "hi")
           (JObj [fld "maxRounds" (JNum 1%float)]);
         ChatWebSocket.SocketSend
           (ChatWebSocket.error_event
              "Cannot read properties of null (reading 'type')")]).
Proof. split; vm_compute; reflexivity. Qed.

(** ** The end of a run *)

Section EndOfRun.

Import ChatWebSocket.

Lemma leave_not_in_flight c e : in_flight (leave c e) e = false.
Proof.
  unfold in_flight, leave. cbn [running].
  induction (running c) as [|x r IH]; [reflexivity|].
  cbn [filter]. destruct (Nat.eqb x e) eqn:Hx; cbn [negb]; [exact IH|].
  cbn [existsb]. rewrite IH, Nat.eqb_sym, Hx. reflexivity.
Qed.

(** An idle session accepts a well-formed query. *)
Lemma idle_session_accepts_query c msgStr data :
  isProcessing c = false ->
  (js_length msgStr <= MAX_MESSAGE_SIZE)%N ->
  nullish data = false ->
  is_str (prop data "type") "ping" = false ->
  is_str (prop data "type") "cancel" = false ->
  query_of data <> [] ->
  (js_length (query_of data) <= 50000)%N ->
  snd (on_message c msgStr (Some data) CtorOk)
  = [NewEngine (nextEngine c);
     Stream (nextEngine c) (query_of data) (buildStreamConfig data)].
Proof.
  intros Hidle Hsize Hnull Hping Hcancel Hq Hlen. unfold on_message.
  apply N.ltb_ge in Hsize. apply N.ltb_ge in Hlen.
  rewrite Hsize, Hnull, Hping, Hcancel, Hidle.
  destruct (query_of data) as [|u q]; [contradiction|].
  now rewrite Hlen.
Qed.

End EndOfRun.

(** C9: when a run ends (its stream is done, its stream throws, or its loop
    breaks on a socket that is not open) or the handler body throws (the
    constructor, or the read of [data.type]), [isProcessing] is false and
    [currentEngine] is null afterwards, and the next well-formed query is
    accepted: an engine is constructed and streamed. *)
Theorem session_idle_after_run c e c' :
  (ChatWebSocket.in_flight c e = true
   /\ (c' = fst (ChatWebSocket.step c (ChatWebSocket.Done e))
       \/ (exists error,
             c' = fst (ChatWebSocket.step c (ChatWebSocket.Throw e error)))
       \/ (exists update,
             ChatWebSocket.readyState c <> 1%N
             /\ c' = fst (ChatWebSocket.step c (ChatWebSocket.Yield e update)))))
  \/ (exists msgStr data ctor,
        (js_length msgStr <= ChatWebSocket.MAX_MESSAGE_SIZE)%N
        /\ nullish data = true
        /\ c' = fst (ChatWebSocket.on_message c msgStr (Some data) ctor))
  \/ (exists msgStr data error,
        (exists a,
           In a (snd (ChatWebSocket.on_message c msgStr (Some data)
                        ChatWebSocket.CtorOk))
           /\ ChatWebSocket.is_engine_call a = true)
        /\ c' = fst (ChatWebSocket.on_message c msgStr (Some data)
                       (ChatWebSocket.CtorThrows error))) ->
  ChatWebSocket.isProcessing c' = false
  /\ ChatWebSocket.currentEngine c' = None
  /\ forall msgStr data,
       (js_length msgStr <= ChatWebSocket.MAX_MESSAGE_SIZE)%N ->
       nullish data = false ->
       is_str (prop data "type") "ping" = false ->
       is_str (prop data "type") "cancel" = false ->
       ChatWebSocket.query_of data <> [] ->
       (js_length (ChatWebSocket.query_of data) <= 50000)%N ->
       snd (ChatWebSocket.on_message c' msgStr (Some data) ChatWebSocket.CtorOk)
       = [ChatWebSocket.NewEngine (ChatWebSocket.nextEngine c');
          ChatWebSocket.Stream (ChatWebSocket.nextEngine c')
            (ChatWebSocket.query_of data)
            (ChatWebSocket.buildStreamConfig data)].
Proof.
  intros H.
  assert (Hidle : ChatWebSocket.isProcessing c' = false
                  /\ ChatWebSocket.currentEngine c' = None).
  { destruct H as [(Hin & [->|[(error & ->)|(update & Hrs & ->)]])
                  |[(msgStr & data & ctor & Hsize & Hnull & ->)
                   |(msgStr & data & error & (a & Ha & Hcall) & ->)]].
    - cbn [ChatWebSocket.step]. rewrite Hin. now split.
    - cbn [ChatWebSocket.step]. rewrite Hin. now split.
    - rewrite (closed_socket_aborts_and_stops c e update Hin Hrs). now split.
    - unfold ChatWebSocket.on_message. apply N.ltb_ge in Hsize.
      rewrite Hsize, Hnull. now split.
    - destruct (on_message_engine_call _ _ _ _ _ Ha Hcall)
        as (d & Hd & Hsize & Hnull & Hping & Hcancel & Hproc & Hq & Hlen & _).
      injection Hd as <-.
      unfold ChatWebSocket.on_message.
      apply N.ltb_ge in Hsize. apply N.ltb_ge in Hlen.
      rewrite Hsize, Hnull, Hping, Hcancel, Hproc.
      destruct (ChatWebSocket.query_of data) as [|u q]; [contradiction|].
      rewrite Hlen. now split. }
  destruct Hidle as (Hp & Hcur).
  repeat split; try assumption.
  intros msgStr data Hsize Hnull Hping Hcancel Hq Hlen.
  now apply idle_session_accepts_query.
Qed.

Lemma session_idle_after_run_witness :
  ChatWebSocket.isProcessing
    (fst (ChatWebSocket.step Samples.busy (ChatWebSocket.Done 0))) = false
  /\ ChatWebSocket.currentEngine
       (fst (ChatWebSocket.step Samples.busy (ChatWebSocket.Done 0))) = None
  /\ snd (ChatWebSocket.on_message
            (fst (ChatWebSocket.step Samples.busy (ChatWebSocket.Done 0)))
            Samples.again_raw (Some Samples.again) ChatWebSocket.CtorOk)
     = [ChatWebSocket.NewEngine 1;
        ChatWebSocket.Stream 1 (lit "again")
          (JObj [fld "maxRounds" (JNum 1%float)])].
Proof.
  destruct (session_idle_after_run Samples.busy 0
              (fst (ChatWebSocket.step Samples.busy (ChatWebSocket.Done 0))))
    as (Hp & Hcur & Hnext).
  - left. split; [reflexivity|]. left. reflexivity.
  - split; [exact Hp|]. split; [exact Hcur|].
    apply (Hnext Samples.again_raw Samples.again); vm_compute;
      try reflexivity; discriminate.
Defined.

(** ** The provider factory *)

Section Factory.

Import LLMFactory.

Lemma getCacheKey_nonempty config : getCacheKey config <> [].
Proof.
  unfold getCacheKey. destruct (provider config) as [[|u r]|]; discriminate.
Qed.

Lemma cache_set_length k v m :
  cache_size (cache_set k v m) <= S (cache_size m).
Proof.
  unfold cache_size. induction m as [|[k' v'] r IH]; simpl; [lia|].
  destruct (jsstring_eqb k k'); simpl; lia.
Qed.

Lemma cache_set_miss k v m :
  cache_get k m = None -> cache_set k v m = m ++ [(k, v)].
Proof.
  induction m as [|[k' v'] r IH]; simpl; [reflexivity|].
  destruct (jsstring_eqb k k'); [discriminate|].
  intros H. now rewrite (IH H).
Qed.

Lemma cache_get_tl k m : cache_get k m = None -> cache_get k (tl m) = None.
Proof.
  destruct m as [|[k' v'] r]; simpl; [trivial|].
  destruct (jsstring_eqb k k'); [discriminate | trivial].
Qed.

Lemma cache_set_keys_nonempty k v m :
  k <> [] -> keys_nonempty m -> keys_nonempty (cache_set k v m).
Proof.
  intros Hk. unfold keys_nonempty.
  induction m as [|[k' v'] r IH]; simpl; intros Hm.
  - constructor; [exact Hk | constructor].
  - inversion Hm as [|? ? Hhd Htl]; subst.
    destruct (jsstring_eqb k k'); constructor; auto.
Qed.

(** With non-empty keys the eviction of lines 37-41 drops exactly the oldest
    entry of a full cache. *)
Lemma evict_oldest m :
  keys_nonempty m ->
  evict m = if (MAX_CACHE_SIZE <=? cache_size m)%nat then tl m else m.
Proof.
  intros Hm. unfold evict.
  destruct (MAX_CACHE_SIZE <=? cache_size m)%nat; [|reflexivity].
  destruct m as [|[k v] r]; [reflexivity|].
  inversion Hm as [|? ? Hk _]; subst. simpl in Hk.
  destruct k as [|u k']; [contradiction|].
  cbn [first_key cache_delete tl]. now rewrite jsstring_eqb_refl.
Qed.

Lemma keys_nonempty_tl m : keys_nonempty m -> keys_nonempty (tl m).
Proof.
  destruct m as [|kv r]; simpl; [trivial|].
  intros H. now inversion H.
Qed.

(** What a call that misses the cache leaves behind. *)
Lemma createLLM_miss f stored customConfig :
  keys_nonempty (cache f) ->
  falsy (apiKey (effective stored customConfig)) = false ->
  cache_get (getCacheKey (effective stored customConfig)) (cache f) = None ->
  exists p,
    createLLM f stored customConfig
    = (inr p,
       mkFactory
         ((if (MAX_CACHE_SIZE <=? cache_size (cache f))%nat
           then tl (cache f) else cache f)
          ++ [(getCacheKey (effective stored customConfig), p)])
         (S (constructed f)))
    /\ instance p = constructed f
    /\ p_apiKey p = apiKey (effective stored customConfig)
    /\ p_baseUrl p = baseUrl (effective stored customConfig)
    /\ p_defaultModel p = defaultModel (effective stored customConfig).
Proof.
  intros Hkeys Hkey Hmiss. unfold createLLM. rewrite Hkey, Hmiss.
  rewrite (evict_oldest _ Hkeys).
  eexists. split.
  - rewrite cache_set_miss; [reflexivity|].
    destruct (MAX_CACHE_SIZE <=? cache_size (cache f))%nat;
      [now apply cache_get_tl | exact Hmiss].
  - destruct (match provider (effective stored customConfig) with
              | Some p => jsstring_eqb p "openai"
              | None => false
              end); repeat split.
Qed.

Lemma StronglySorted_snoc {A} (R : A -> A -> Prop) l x :
  StronglySorted R l -> Forall (fun y => R y x) l ->
  StronglySorted R (l ++ [x]).
Proof.
  induction 1 as [|a l Hl IH Ha]; intros Hx; simpl.
  - constructor; constructor.
  - inversion Hx as [|? ? Hax Hlx]; subst.
    constructor; [now apply IH|].
    apply Forall_app. split; [exact Ha | now constructor].
Qed.

Lemma insertion_ordered_tl m n :
  StronglySorted older m /\ Forall (fun kv => instance (snd kv) < n) m ->
  StronglySorted older (tl m) /\ Forall (fun kv => instance (snd kv) < n) (tl m).
Proof.
  destruct m as [|kv r]; simpl; [trivial|].
  intros [Hs Hf]. split; [now inversion Hs | now inversion Hf].
Qed.

Lemma createLLM_ok f stored customConfig :
  factory_ok f -> factory_ok (snd (createLLM f stored customConfig)).
Proof.
  intros (Hkeys & Hsize & Hord).
  destruct (falsy (apiKey (effective stored customConfig))) eqn:Hkey.
  { unfold createLLM. rewrite Hkey. exact (conj Hkeys (conj Hsize Hord)). }
  destruct (cache_get (getCacheKey (effective stored customConfig)) (cache f))
    as [cached|] eqn:Hget.
  { unfold createLLM. rewrite Hkey, Hget. exact (conj Hkeys (conj Hsize Hord)). }
  destruct (createLLM_miss f stored customConfig Hkeys Hkey Hget)
    as (p & -> & Hp & _).
  unfold factory_ok. cbn [snd cache]. split; [|split].
  - unfold keys_nonempty. apply Forall_app. split.
    + destruct (MAX_CACHE_SIZE <=? cache_size (cache f))%nat;
        [now apply keys_nonempty_tl | exact Hkeys].
    + constructor; [apply getCacheKey_nonempty | constructor].
  - unfold cache_size, MAX_CACHE_SIZE in *.
    destruct (20 <=? List.length (cache f))%nat eqn:Hfull;
      rewrite length_app; cbn [List.length].
    + apply Nat.leb_le in Hfull.
      destruct (cache f) as [|kv r]; cbn [tl List.length] in *; lia.
    + apply Nat.leb_gt in Hfull. lia.
  - unfold insertion_ordered in *. cbn [cache constructed].
    assert (Hkept : StronglySorted older
                      (if (MAX_CACHE_SIZE <=? cache_size (cache f))%nat
                       then tl (cache f) else cache f)
                    /\ Forall (fun kv => instance (snd kv) < constructed f)
                         (if (MAX_CACHE_SIZE <=? cache_size (cache f))%nat
                          then tl (cache f) else cache f)).
    { destruct (MAX_CACHE_SIZE <=? cache_size (cache f))%nat;
        [now apply insertion_ordered_tl | exact Hord]. }
    destruct Hkept as [Hs Hf]. split.
    + apply StronglySorted_snoc; [exact Hs|].
      eapply Forall_impl; [|exact Hf].
      intros kv Hlt. unfold older. cbn [snd]. now rewrite Hp.
    + apply Forall_app. split.
      * eapply Forall_impl; [|exact Hf]. intros kv Hlt. cbn beta in *. lia.
      * constructor; [cbn [snd]; rewrite Hp; lia | constructor].
Qed.

Lemma clearCache_ok f : factory_ok (clearCache f).
Proof.
  repeat split; try constructor.
  unfold cache_size, MAX_CACHE_SIZE. simpl. lia.
Qed.

Lemma calls_ok cs : forall f, factory_ok f -> factory_ok (calls f cs).
Proof.
  induction cs as [|c cs IH]; intros f Hf; [exact Hf|].
  cbn [calls fold_left]. apply IH.
  destruct c as [stored customConfig|]; cbn [call].
  - now apply createLLM_ok.
  - apply clearCache_ok.
Qed.

Lemma empty_factory_ok : factory_ok empty_factory.
Proof.
  repeat split; try constructor.
  unfold cache_size, MAX_CACHE_SIZE. simpl. lia.
Qed.

End Factory.

(** C7, as amended: [createLLM] throws exactly when the config it works
    with ([customConfig] if given, the stored one otherwise) has no [apiKey]
    or an empty one; what it throws is the missing-key error, and then
    nothing was constructed and nothing cached.  When that error comes out of
    a run's stream, the transport hands [safeSend] the one event
    [{type: "error", message}] whose message is the error's: on an open
    socket exactly that frame is written, on any other socket nothing is;
    either way the run is over, the session is idle, and nothing more of
    that run is forwarded. *)
Theorem missing_api_key_is_reported f stored customConfig :
  ((exists error,
      fst (LLMFactory.createLLM f stored customConfig) = inl error)
   <-> (match customConfig with
        | Some config => LLMFactory.apiKey config
        | None => LLMFactory.apiKey stored
        end = None
        \/ match customConfig with
           | Some config => LLMFactory.apiKey config
           | None => LLMFactory.apiKey stored
           end = Some []))
  /\ (forall error,
        fst (LLMFactory.createLLM f stored customConfig) = inl error ->
        error = LLMFactory.API_KEY_ERROR
        /\ err_message error <> []
        /\ snd (LLMFactory.createLLM f stored customConfig) = f)
  /\ forall c e,
       ChatWebSocket.in_flight c e = true ->
       (ChatWebSocket.readyState c = 1%N ->
        snd (ChatWebSocket.step c
               (ChatWebSocket.Throw e LLMFactory.API_KEY_ERROR))
        = [ChatWebSocket.SocketSend
             (JObj [fld "type" (JStr "error");
                    fld "message"
                      (JStr (err_message LLMFactory.API_KEY_ERROR))])])
       /\ (ChatWebSocket.readyState c <> 1%N ->
           snd (ChatWebSocket.step c
                  (ChatWebSocket.Throw e LLMFactory.API_KEY_ERROR)) = [])
       /\ ChatWebSocket.isProcessing
            (fst (ChatWebSocket.step c
                    (ChatWebSocket.Throw e LLMFactory.API_KEY_ERROR))) = false
       /\ ChatWebSocket.currentEngine
            (fst (ChatWebSocket.step c
                    (ChatWebSocket.Throw e LLMFactory.API_KEY_ERROR))) = None
       /\ ChatWebSocket.in_flight
            (fst (ChatWebSocket.step c
                    (ChatWebSocket.Throw e LLMFactory.API_KEY_ERROR))) e
          = false
       /\ forall i,
            i = ChatWebSocket.Done e
            \/ (exists update, i = ChatWebSocket.Yield e update)
            \/ (exists error, i = ChatWebSocket.Throw e error) ->
            snd (ChatWebSocket.step
                   (fst (ChatWebSocket.step c
                           (ChatWebSocket.Throw e LLMFactory.API_KEY_ERROR)))
                   i) = [].
Proof.
  split; [|split].
  - unfold LLMFactory.createLLM, LLMFactory.effective.
    destruct (match customConfig with
              | Some config => LLMFactory.apiKey config
              | None => LLMFactory.apiKey stored
              end) as [[|u r]|] eqn:Hkey.
    + replace (LLMFactory.apiKey
                 match customConfig with Some c => c | None => stored end)
        with (Some (@nil code_unit)) by (now destruct customConfig).
      cbn [LLMFactory.falsy].
      split; [now right | intros _; now eexists].
    + replace (LLMFactory.apiKey
                 match customConfig with Some c => c | None => stored end)
        with (Some (u :: r)) by (now destruct customConfig).
      cbn [LLMFactory.falsy].
      split; [|intros [H|H]; discriminate].
      intros [error Herr].
      destruct (LLMFactory.cache_get _ _); discriminate.
    + replace (LLMFactory.apiKey
                 match customConfig with Some c => c | None => stored end)
        with (@None jsstring) by (now destruct customConfig).
      cbn [LLMFactory.falsy].
      split; [now left | intros _; now eexists].
  - intros error. unfold LLMFactory.createLLM.
    destruct (LLMFactory.falsy
                (LLMFactory.apiKey (LLMFactory.effective stored customConfig))).
    + cbn [fst snd]. intros [= <-].
      split; [reflexivity|]. split; [discriminate | reflexivity].
    + destruct (LLMFactory.cache_get _ _); discriminate.
  - intros c e Hin.
    assert (Hstep : ChatWebSocket.step c
                      (ChatWebSocket.Throw e LLMFactory.API_KEY_ERROR)
                    = (ChatWebSocket.leave
                         (ChatWebSocket.set_session
                            (ChatWebSocket.finally_block c) false None) e,
                       if (ChatWebSocket.readyState c =? 1)%N
                       then [ChatWebSocket.SocketSend
                               (JObj [fld "type" (JStr "error");
                                      fld "message"
                                        (JStr (err_message
                                                 LLMFactory.API_KEY_ERROR))])]
                       else [])).
    { cbn [ChatWebSocket.step]. rewrite Hin. reflexivity. }
    rewrite Hstep. cbn [fst snd].
    split; [intros Hopen; now rewrite Hopen|].
    split; [intros Hclosed; apply N.eqb_neq in Hclosed; now rewrite Hclosed|].
    split; [reflexivity|]. split; [reflexivity|].
    split; [apply leave_not_in_flight|].
    intros i [->|[(update & ->)|(error & ->)]];
      cbn [ChatWebSocket.step]; now rewrite leave_not_in_flight.
Qed.

Lemma missing_api_key_is_reported_witness :
  LLMFactory.createLLM LLMFactory.empty_factory Samples.no_key None
  = (inl LLMFactory.API_KEY_ERROR, LLMFactory.empty_factory)
  /\ snd (ChatWebSocket.step Samples.busy
            (ChatWebSocket.Throw 0 LLMFactory.API_KEY_ERROR))
     = [ChatWebSocket.SocketSend
          (JObj [fld "type" (JStr "error");
                 fld "message"
                   (JStr (err_message LLMFactory.API_KEY_ERROR))])].
Proof.
  destruct (missing_api_key_is_reported LLMFactory.empty_factory
              Samples.no_key None) as (_ & Hthrow & Hsend).
  split.
  - destruct (Hthrow LLMFactory.API_KEY_ERROR eq_refl) as (_ & _ & Hf).
    reflexivity.
  - exact (proj1 (Hsend Samples.busy 0 eq_refl) eq_refl).
Defined.

(** C7 as stated fails in its last part: when the socket is no longer open
    (here it is closing) the configuration error that comes out of the run's
    stream is surfaced as no event at all; [safeSend] drops it. *)
Lemma api_key_error_dropped_on_closing_socket :
  ChatWebSocket.in_flight Samples.busy_closing 0 = true
  /\ ChatWebSocket.step Samples.busy_closing
       (ChatWebSocket.Throw 0 LLMFactory.API_KEY_ERROR)
     = (ChatWebSocket.mkConn false None 2 [] 1, []).
Proof. split; reflexivity. Qed.

(** C8: from an empty cache and through any sequence of [createLLM] and
    [clearCache] calls the cache holds at most [MAX_CACHE_SIZE] = 20
    entries, and they stand in the order in which they were inserted, the
    oldest first; a call that finds its key leaves the cache as it is; a
    call that misses appends its entry at the end, after dropping the first
    (the oldest inserted) entry when the cache is full. *)
Theorem provider_cache_bounded cs :
  LLMFactory.cache_size (LLMFactory.cache
    (LLMFactory.calls LLMFactory.empty_factory cs)) <= LLMFactory.MAX_CACHE_SIZE
  /\ StronglySorted LLMFactory.older
       (LLMFactory.cache (LLMFactory.calls LLMFactory.empty_factory cs))
  /\ forall stored customConfig,
       LLMFactory.falsy
         (LLMFactory.apiKey (LLMFactory.effective stored customConfig)) = false ->
       (forall cached,
          LLMFactory.cache_get
            (LLMFactory.getCacheKey (LLMFactory.effective stored customConfig))
            (LLMFactory.cache (LLMFactory.calls LLMFactory.empty_factory cs))
          = Some cached ->
          LLMFactory.createLLM (LLMFactory.calls LLMFactory.empty_factory cs)
            stored customConfig
          = (inr cached, LLMFactory.calls LLMFactory.empty_factory cs))
       /\ (LLMFactory.cache_get
             (LLMFactory.getCacheKey (LLMFactory.effective stored customConfig))
             (LLMFactory.cache (LLMFactory.calls LLMFactory.empty_factory cs))
           = None ->
           exists p,
             fst (LLMFactory.createLLM
                    (LLMFactory.calls LLMFactory.empty_factory cs)
                    stored customConfig) = inr p
             /\ LLMFactory.cache
                  (snd (LLMFactory.createLLM
                          (LLMFactory.calls LLMFactory.empty_factory cs)
                          stored customConfig))
                = (if (LLMFactory.cache_size
                         (LLMFactory.cache
                            (LLMFactory.calls LLMFactory.empty_factory cs))
                       =? LLMFactory.MAX_CACHE_SIZE)%nat
                   then tl (LLMFactory.cache
                              (LLMFactory.calls LLMFactory.empty_factory cs))
                   else LLMFactory.cache
                          (LLMFactory.calls LLMFactory.empty_factory cs))
                  ++ [(LLMFactory.getCacheKey
                         (LLMFactory.effective stored customConfig), p)]).
Proof.
  destruct (calls_ok cs _ empty_factory_ok) as (Hkeys & Hsize & Hord & _).
  split; [exact Hsize|]. split; [exact Hord|].
  intros stored customConfig Hkey. split.
  - intros cached Hget. unfold LLMFactory.createLLM. now rewrite Hkey, Hget.
  - intros Hmiss.
    destruct (createLLM_miss _ stored customConfig Hkeys Hkey Hmiss)
      as (p & -> & _).
    exists p. split; [reflexivity|]. cbn [snd LLMFactory.cache].
    replace (LLMFactory.MAX_CACHE_SIZE <=? _)%nat
      with (LLMFactory.cache_size
              (LLMFactory.cache (LLMFactory.calls LLMFactory.empty_factory cs))
            =? LLMFactory.MAX_CACHE_SIZE)%nat; [reflexivity|].
    destruct (Nat.eqb_spec
                (LLMFactory.cache_size
                   (LLMFactory.cache
                      (LLMFactory.calls LLMFactory.empty_factory cs)))
                LLMFactory.MAX_CACHE_SIZE) as [Heq|Hne];
      symmetry; [apply Nat.leb_le | apply Nat.leb_gt]; lia.
Qed.

Lemma provider_cache_bounded_witness :
  LLMFactory.cache_size (LLMFactory.cache
    (LLMFactory.calls LLMFactory.empty_factory (Samples.numbered_calls 21)))
  <= LLMFactory.MAX_CACHE_SIZE
  /\ exists p,
       fst (LLMFactory.createLLM
              (LLMFactory.calls LLMFactory.empty_factory
                 (Samples.numbered_calls 20))
              Samples.no_key (Some (Samples.numbered 20))) = inr p
       /\ LLMFactory.cache
            (snd (LLMFactory.createLLM
                    (LLMFactory.calls LLMFactory.empty_factory
                       (Samples.numbered_calls 20))
                    Samples.no_key (Some (Samples.numbered 20))))
          = tl (LLMFactory.cache
                  (LLMFactory.calls LLMFactory.empty_factory
                     (Samples.numbered_calls 20)))
            ++ [(LLMFactory.getCacheKey (Samples.numbered 20), p)].
Proof.
  split.
  - exact (proj1 (provider_cache_bounded (Samples.numbered_calls 21))).
  - destruct (proj2 (proj2 (provider_cache_bounded (Samples.numbered_calls 20)))
                Samples.no_key (Some (Samples.numbered 20)))
      as [_ Hmiss]; [reflexivity|].
    destruct Hmiss as (p & Hp & Hc); [vm_compute; reflexivity|].
    exists p. split; [exact Hp|].
    assert (Hfull : (LLMFactory.cache_size
                       (LLMFactory.cache
                          (LLMFactory.calls LLMFactory.empty_factory
                             (Samples.numbered_calls 20)))
                     =? LLMFactory.MAX_CACHE_SIZE)%nat = true)
      by (vm_compute; reflexivity).
    rewrite Hfull in Hc. exact Hc.
Defined.

(** Two configs with the same cache key share one provider instance: the
    second call gets what the first one constructed. *)
Lemma same_key_same_instance f stored c1 c2 p f1 :
  LLMFactory.getCacheKey c1 = LLMFactory.getCacheKey c2 ->
  LLMFactory.falsy (LLMFactory.apiKey c2) = false ->
  LLMFactory.keys_nonempty (LLMFactory.cache f) ->
  LLMFactory.createLLM f stored (Some c1) = (inr p, f1) ->
  LLMFactory.createLLM f1 stored (Some c2) = (inr p, f1).
Proof.
  intros Hsame Hkey2 Hkeys Hc1.
  assert (Hlast : forall m q,
            LLMFactory.cache_get (LLMFactory.getCacheKey c1) m = None ->
            LLMFactory.cache_get (LLMFactory.getCacheKey c1)
              (m ++ [(LLMFactory.getCacheKey c1, q)]) = Some q).
  { intros m q. induction m as [|[k v] r IH]; simpl.
    - now rewrite jsstring_eqb_refl.
    - destruct (jsstring_eqb _ k); [discriminate | exact IH]. }
  destruct (LLMFactory.falsy (LLMFactory.apiKey c1)) eqn:Hkey1.
  { unfold LLMFactory.createLLM in Hc1. cbn [LLMFactory.effective] in Hc1.
    rewrite Hkey1 in Hc1. discriminate. }
  destruct (LLMFactory.cache_get (LLMFactory.getCacheKey c1) (LLMFactory.cache f))
    as [cached|] eqn:Hget.
  - unfold LLMFactory.createLLM in Hc1. cbn [LLMFactory.effective] in Hc1.
    rewrite Hkey1, Hget in Hc1. injection Hc1 as <- <-.
    unfold LLMFactory.createLLM. cbn [LLMFactory.effective].
    now rewrite Hkey2, <- Hsame, Hget.
  - destruct (createLLM_miss f stored (Some c1) Hkeys Hkey1 Hget)
      as (q & Hq & _).
    rewrite Hq in Hc1. injection Hc1 as <- <-.
    unfold LLMFactory.createLLM.
    cbn [LLMFactory.effective LLMFactory.cache].
    rewrite Hkey2, <- Hsame, Hlast; [reflexivity|].
    match goal with
    | |- LLMFactory.cache_get _ (if ?b then _ else _) = None => destruct b
    end; [now apply cache_get_tl | exact Hget].
Qed.

(** C10: the cache key is not injective.  The configs
    [{apiKey: "a:b", baseUrl: "c"}] and [{apiKey: "a", baseUrl: "b:c"}]
    differ in key and endpoint and both give ["openai:a:b:c:"], so the
    second [createLLM] returns the very instance constructed for the
    first, with the first config's key and endpoint in it. *)
Theorem cache_key_collision :
  exists c1 c2 p f1,
    LLMFactory.apiKey c1 <> LLMFactory.apiKey c2
    /\ LLMFactory.baseUrl c1 <> LLMFactory.baseUrl c2
    /\ LLMFactory.getCacheKey c1 = LLMFactory.getCacheKey c2
    /\ LLMFactory.getCacheKey c1 = lit "openai:a:b:c:"
    /\ LLMFactory.createLLM LLMFactory.empty_factory Samples.no_key (Some c1)
       = (inr p, f1)
    /\ LLMFactory.createLLM f1 Samples.no_key (Some c2) = (inr p, f1)
    /\ LLMFactory.p_apiKey p = LLMFactory.apiKey c1
    /\ LLMFactory.p_baseUrl p = LLMFactory.baseUrl c1.
Proof.
  exists Samples.colon_in_key, Samples.colon_in_url.
  eexists. eexists.
  split; [discriminate|]. split; [discriminate|].
  split; [reflexivity|]. split; [reflexivity|].
  split; [vm_compute; reflexivity|].
  split; [vm_compute; reflexivity|].
  split; reflexivity.
Qed.

(** ** The engine's terminal event *)

Section TerminalEvent.

Import Engine.

Lemma count_app p a b : count p (a ++ b) = count p a + count p b.
Proof. unfold count. now rewrite filter_app, length_app. Qed.

Lemma progress_count evs :
  Forall progress evs -> count is_complete evs = 0 /\ count is_error evs = 0.
Proof.
  unfold count. induction 1 as [|e r [Hc He] _ [IHc IHe]]; simpl; [now split|].
  now rewrite Hc, He.
Qed.

Lemma fanout_progress a calls : forall check out,
  Forall progress (fst (fanout a check calls out)).
Proof.
  induction calls as [|c rest IH]; intros check out; cbn [fanout];
    [constructor|].
  destruct (token_set a check); [constructor|].
  specialize (IH (S check) (out ++ [(expert c, entry c)])).
  destruct (fanout a (S check) rest (out ++ [(expert c, entry c)])) as [evs r].
  cbn [fst] in *. constructor; [now split | exact IH].
Qed.

Ltac progress_list :=
  repeat first
    [ apply Forall_nil
    | apply Forall_cons; [now split|]
    | apply Forall_app; split
    | assumption ].

Variable research_failure_is_fatal : bool.

(** A round emits neither [Complete] nor [Error]. *)
Lemma round_progress last st env :
  Forall progress (fst (round research_failure_is_fatal last st env)).
Proof.
  unfold round.
  pose proof (fanout_progress (abort_at env) (expert_calls env) 3 []) as Hx.
  destruct (fanout (abort_at env) 3 (expert_calls env) []) as [xevs settled].
  cbn [fst] in Hx.
  repeat match goal with
  | |- context [if ?b then _ else _] => destruct b
  | |- context [match ?x with _ => _ end] => destruct x
  end; cbn [fst]; progress_list.
Qed.

(** The shape of a run's event sequence: progress events, then the one
    terminal event its final state calls for. *)
Lemma rounds_shape env remaining : forall k st,
  exists body,
    Forall progress body
    /\ match snd (rounds research_failure_is_fatal env k remaining st) with
       | COMPLETED =>
           exists st',
             fst (rounds research_failure_is_fatal env k remaining st)
             = body ++ [complete_event st']
       | FAILED =>
           exists message,
             fst (rounds research_failure_is_fatal env k remaining st)
             = body ++ [Error message]
       | ABORTED =>
           fst (rounds research_failure_is_fatal env k remaining st) = body
       end.
Proof.
  induction remaining as [|r IH]; intros k st; cbn [rounds].
  - exists []. split; [constructor|]. now exists st.
  - pose proof (round_progress (r =? 0)%nat
                  (mkState (searchResults st) [] (finalOutput st)) (env k))
      as Hround.
    destruct (round research_failure_is_fatal (r =? 0)%nat
                (mkState (searchResults st) [] (finalOutput st)) (env k))
      as [evs res].
    cbn [fst] in Hround.
    destruct res as [st'|st'|message|].
    + destruct (abort_at (env k)); [now exists evs|].
      destruct (IH (S k) st') as (body & Hbody & Hshape).
      destruct (rounds research_failure_is_fatal env (S k) r st') as [evs' t].
      cbn [fst snd] in *.
      exists (evs ++ body). split; [now apply Forall_app|].
      destruct t.
      * destruct Hshape as (st'' & ->). exists st''. now rewrite app_assoc.
      * now rewrite Hshape.
      * destruct Hshape as (m & ->). exists m. now rewrite app_assoc.
    + destruct (abort_at (env k)); [now exists evs|].
      exists evs. split; [exact Hround|]. now exists st'.
    + exists evs. split; [exact Hround|]. now exists message.
    + now exists evs.
Qed.

(** Without [abort()] every expert's call is taken in. *)
Lemma fanout_no_abort calls : forall check out,
  exists res, snd (fanout None check calls out) = Some res.
Proof.
  induction calls as [|c rest IH]; intros check out; cbn [fanout token_set].
  - now exists out.
  - destruct (IH (S check) (out ++ [(expert c, entry c)])) as [res Hres].
    destruct (fanout None (S check) rest (out ++ [(expert c, entry c)]))
      as [evs r].
    cbn [snd] in *. now exists res.
Qed.

(** A round is cancelled only when [abort()] was called during it. *)
Lemma round_cancelled last st env :
  snd (round research_failure_is_fatal last st env) = Cancelled ->
  abort_at env <> None.
Proof.
  intros H Hnone. unfold round in H. rewrite Hnone in H.
  cbn [token_set] in H.
  destruct (fanout_no_abort (expert_calls env) 3 []) as [res Hres].
  destruct (fanout None 3 (expert_calls env) []) as [xevs settled].
  cbn [snd] in Hres. subst settled.
  repeat match type of H with
  | context [if ?b then _ else _] => destruct b
  | context [match ?x with _ => _ end] => destruct x
  end; discriminate.
Qed.

(** A run is aborted only when [abort()] was called in one of its rounds. *)
Lemma rounds_aborted env remaining : forall k st,
  snd (rounds research_failure_is_fatal env k remaining st) = ABORTED ->
  exists j, k <= j /\ j < k + remaining /\ abort_at (env j) <> None.
Proof.
  induction remaining as [|r IH]; intros k st; cbn [rounds];
    [discriminate|].
  pose proof (round_cancelled (r =? 0)%nat
                (mkState (searchResults st) [] (finalOutput st)) (env k))
    as Hcancel.
  destruct (round research_failure_is_fatal (r =? 0)%nat
              (mkState (searchResults st) [] (finalOutput st)) (env k))
    as [evs res].
  cbn [snd] in Hcancel.
  destruct res as [st'|st'|message|].
  - destruct (abort_at (env k)) eqn:Ha.
    + intros _. exists k. rewrite Ha. repeat split; [lia | lia | discriminate].
    + specialize (IH (S k) st').
      destruct (rounds research_failure_is_fatal env (S k) r st') as [evs' t].
      cbn [snd] in *. intros Ht. destruct (IH Ht) as (j & Hj1 & Hj2 & Hj3).
      exists j. repeat split; [lia | lia | exact Hj3].
  - destruct (abort_at (env k)) eqn:Ha; [|discriminate].
    intros _. exists k. rewrite Ha. repeat split; [lia | lia | discriminate].
  - discriminate.
  - intros _. exists k. repeat split; [lia | lia | now apply Hcancel].
Qed.

(** A run in whose first round [abort()] is called does not complete. *)
Lemma rounds_abort_no_complete env k r st :
  abort_at (env k) <> None ->
  snd (rounds research_failure_is_fatal env k (S r) st) <> COMPLETED.
Proof.
  intros Ha. cbn [rounds].
  destruct (round research_failure_is_fatal (r =? 0)%nat
              (mkState (searchResults st) [] (finalOutput st)) (env k))
    as [evs res].
  destruct res as [st'|st'|message|];
    try destruct (abort_at (env k)); try contradiction; discriminate.
Qed.

(** A round during which [abort()] is called and no node fails ends the
    run as aborted. *)
Lemma rounds_abort_cancels env k r st :
  abort_at (env k) <> None ->
  search_call (env k) <> None ->
  all_failed (expert_calls (env k)) = false ->
  synthesis_call (env k) <> None ->
  snd (rounds research_failure_is_fatal env k (S r) st) = ABORTED.
Proof.
  intros Ha Hs Hx Hy. cbn [rounds].
  assert (Hround : forall message,
            snd (round research_failure_is_fatal (r =? 0)%nat
                   (mkState (searchResults st) [] (finalOutput st)) (env k))
            <> NodeFailure message).
  { intros message. unfold round. rewrite Hx.
    destruct (fanout (abort_at (env k)) 3 (expert_calls (env k)) [])
      as [xevs settled].
    repeat match goal with
    | |- context [if ?b then _ else _] => destruct b
    | |- context [match ?x with _ => _ end] => destruct x
    end; cbn [snd]; try discriminate; contradiction. }
  destruct (round research_failure_is_fatal (r =? 0)%nat
              (mkState (searchResults st) [] (finalOutput st)) (env k))
    as [evs res].
  cbn [snd] in Hround.
  destruct res as [st'|st'|message|];
    [destruct (abort_at (env k)); [reflexivity | contradiction]
    |destruct (abort_at (env k)); [reflexivity | contradiction]
    |now elim (Hround message)
    |reflexivity].
Qed.

End TerminalEvent.

(** C1: every run of the engine ends in exactly one of three ways.  A
    completed run emits one [Complete], as its last event, and no [Error]; a
    failed run emits one [Error], as its last event, and no [Complete]; a
    cancelled run emits neither.  So [Complete] and [Error] never occur in
    the same run, each occurs at most once, and a run that is not cancelled
    emits exactly one of them.  A run is cancelled only if [abort()] was
    called in one of its rounds: a run during which [abort()] is never
    called emits exactly one of [Complete] and [Error]; and a run in whose
    first round [abort()] is called emits no [Complete]. *)
Theorem one_terminal_event research_failure_is_fatal query config env :
  let evs :=
    fst (Engine.stream research_failure_is_fatal query config env) in
  let final :=
    snd (Engine.stream research_failure_is_fatal query config env) in
  Engine.count Engine.is_complete evs + Engine.count Engine.is_error evs <= 1
  /\ (final = Engine.COMPLETED <-> Engine.count Engine.is_complete evs = 1)
  /\ (final = Engine.FAILED <-> Engine.count Engine.is_error evs = 1)
  /\ (final = Engine.ABORTED <->
      Engine.count Engine.is_complete evs + Engine.count Engine.is_error evs = 0)
  /\ (exists body,
        Forall Engine.progress body
        /\ match final with
           | Engine.COMPLETED =>
               exists st, evs = body ++ [Engine.complete_event st]
           | Engine.FAILED =>
               exists message, evs = body ++ [Engine.Error message]
           | Engine.ABORTED => evs = body
           end)
  /\ (final = Engine.ABORTED ->
      exists k, k < Engine.maxRounds config
                /\ Engine.abort_at (env k) <> None)
  /\ ((forall k, k < Engine.maxRounds config ->
                 Engine.abort_at (env k) = None) ->
      final <> Engine.ABORTED
      /\ Engine.count Engine.is_complete evs
         + Engine.count Engine.is_error evs = 1)
  /\ (0 < Engine.maxRounds config ->
      Engine.abort_at (env 0) <> None ->
      final <> Engine.COMPLETED
      /\ Engine.count Engine.is_complete evs = 0)
  /\ (query <> [] ->
      0 < Engine.maxRounds config ->
      Engine.abort_at (env 0) <> None ->
      Engine.search_call (env 0) <> None ->
      Engine.all_failed (Engine.expert_calls (env 0)) = false ->
      Engine.synthesis_call (env 0) <> None ->
      final = Engine.ABORTED
      /\ Engine.count Engine.is_complete evs = 0
      /\ Engine.count Engine.is_error evs = 0).
Proof.
  intros evs final.
  assert (Hshape : exists body,
             Forall Engine.progress body
             /\ match final with
                | Engine.COMPLETED =>
                    exists st, evs = body ++ [Engine.complete_event st]
                | Engine.FAILED =>
                    exists message, evs = body ++ [Engine.Error message]
                | Engine.ABORTED => evs = body
                end).
  { subst evs final. unfold Engine.stream.
    destruct query as [|u q].
    - exists []. split; [constructor|]. now eexists.
    - apply rounds_shape. }
  destruct Hshape as (body & Hbody & Hshape).
  destruct (progress_count body Hbody) as [Hc He].
  assert (Hcounts :
    match final with
    | Engine.COMPLETED =>
        Engine.count Engine.is_complete evs = 1
        /\ Engine.count Engine.is_error evs = 0
    | Engine.FAILED =>
        Engine.count Engine.is_complete evs = 0
        /\ Engine.count Engine.is_error evs = 1
    | Engine.ABORTED =>
        Engine.count Engine.is_complete evs = 0
        /\ Engine.count Engine.is_error evs = 0
    end).
  { destruct final.
    - destruct Hshape as (st & ->). rewrite !count_app, Hc, He. now split.
    - rewrite Hshape. now split.
    - destruct Hshape as (m & ->). rewrite !count_app, Hc, He. now split. }
  assert (Haborted : final = Engine.ABORTED ->
            exists k, k < Engine.maxRounds config
                      /\ Engine.abort_at (env k) <> None).
  { subst final. unfold Engine.stream. destruct query as [|u q];
      [discriminate|].
    intros Ht.
    destruct (rounds_aborted research_failure_is_fatal env
                (Engine.maxRounds config) 0 _ Ht) as (j & _ & Hj & Ha).
    exists j. split; [exact Hj | exact Ha]. }
  assert (Hnocomplete : 0 < Engine.maxRounds config ->
            Engine.abort_at (env 0) <> None -> final <> Engine.COMPLETED).
  { subst final. unfold Engine.stream. destruct query as [|u q];
      [discriminate|].
    intros Hpos Ha. destruct (Engine.maxRounds config) as [|r]; [lia|].
    now apply rounds_abort_no_complete. }
  split; [destruct final; destruct Hcounts as [H1 H2]; rewrite H1, H2; lia|].
  split; [destruct final; destruct Hcounts as [H1 H2]; rewrite H1;
          split; intros; first [reflexivity | discriminate]|].
  split; [destruct final; destruct Hcounts as [H1 H2]; rewrite H2;
          split; intros; first [reflexivity | discriminate]|].
  split; [destruct final; destruct Hcounts as [H1 H2]; rewrite H1, H2;
          split; intros; first [reflexivity | discriminate]|].
  split; [exists body; split; [exact Hbody | exact Hshape]|].
  split; [exact Haborted|].
  split.
  - intros Hnone.
    assert (Hna : final <> Engine.ABORTED).
    { intros Ht. destruct (Haborted Ht) as (k & Hk & Ha).
      apply Ha, Hnone, Hk. }
    split; [exact Hna|].
    destruct final; destruct Hcounts as [H1 H2]; rewrite H1, H2;
      [reflexivity | contradiction | reflexivity].
  - split.
    + intros Hpos Ha. pose proof (Hnocomplete Hpos Ha) as Hnc.
      split; [exact Hnc|].
      destruct final; destruct Hcounts as [H1 H2];
        [contradiction | exact H1 | exact H1].
    + intros Hq Hpos Ha Hs Hx Hy.
      assert (Hab : final = Engine.ABORTED).
      { subst final. unfold Engine.stream.
        destruct query as [|u q]; [contradiction|].
        destruct (Engine.maxRounds config) as [|r]; [lia|].
        now apply rounds_abort_cancels. }
      split; [exact Hab|]. rewrite Hab in Hcounts. exact Hcounts.
Qed.

Lemma one_terminal_event_witness :
  Engine.count Engine.is_complete
    (fst (Engine.stream true (lit "What is 2+2?") Samples.one_round
            Samples.two_plus_two))
  + Engine.count Engine.is_error
      (fst (Engine.stream true (lit "What is 2+2?") Samples.one_round
              Samples.two_plus_two)) = 1
  /\ snd (Engine.stream true (lit "q") Samples.one_round
            Samples.aborted_in_fanout) = Engine.ABORTED.
Proof.
  pose proof (one_terminal_event true (lit "What is 2+2?") Samples.one_round
                Samples.two_plus_two) as Hnormal.
  pose proof (one_terminal_event true (lit "q") Samples.one_round
                Samples.aborted_in_fanout) as Habort.
  cbv zeta in Hnormal, Habort.
  destruct Hnormal as (_ & _ & _ & _ & _ & _ & Hnormal & _).
  destruct Habort as (_ & _ & _ & _ & _ & _ & _ & _ & Habort).
  split.
  - apply Hnormal. intros k _. reflexivity.
  - apply Habort; try discriminate; [cbn; lia | reflexivity].
Defined.

(** The specification's end-to-end scenarios, run on the model. *)
Example scenario_two_plus_two :
  Engine.stream true (lit "What is 2+2?") Samples.one_round Samples.two_plus_two
  = ([Engine.NodeStart Engine.search (JObj []);
      Engine.NodeComplete Engine.search
        (Some [JStr "r1"; JStr "r2"; JStr "r3"]);
      Engine.NodeStart Engine.experts (JObj []);
      Engine.ExpertComplete (JStr "four");
      Engine.ExpertComplete (JStr "4");
      Engine.NodeComplete Engine.experts None;
      Engine.NodeStart Engine.synthesis (JObj []);
      Engine.NodeComplete Engine.synthesis None;
      Engine.Complete (Some (JStr "2+2=4"))
        [(2, JStr "four"); (1, JStr "4")]
        (Some [JStr "r1"; JStr "r2"; JStr "r3"])],
     Engine.COMPLETED).
Proof. vm_compute. reflexivity. Qed.

Example scenario_all_experts_fail :
  Engine.stream true (lit "q") Samples.one_round Samples.all_experts_fail
  = ([Engine.NodeStart Engine.search (JObj []);
      Engine.NodeComplete Engine.search (Some [JStr "r1"]);
      Engine.NodeStart Engine.experts (JObj []);
      Engine.ExpertComplete (JStr "timeout");
      Engine.ExpertComplete (JStr "timeout");
      Engine.Error "All experts failed"],
     Engine.FAILED).
Proof. vm_compute. reflexivity. Qed.

Example scenario_abort_in_fanout :
  Engine.stream true (lit "q") Samples.one_round Samples.aborted_in_fanout
  = ([Engine.NodeStart Engine.search (JObj []);
      Engine.NodeComplete Engine.search (Some [JStr "r1"]);
      Engine.NodeStart Engine.experts (JObj []);
      Engine.ExpertComplete (JStr "one")],
     Engine.ABORTED).
Proof. vm_compute. reflexivity. Qed.

(* ================================================================== *)
(** * Further properties of the transport *)
(* ================================================================== *)

(** ** Trimming *)

Lemma trimStart_head s :
  trimStart s = [] \/ exists u r, trimStart s = u :: r /\ is_whitespace u = false.
Proof.
  induction s as [|u r IH]; simpl; [now left|].
  destruct (is_whitespace u) eqn:Hu; [exact IH|].
  right. now exists u, r.
Qed.

Lemma trimStart_idem s : trimStart (trimStart s) = trimStart s.
Proof.
  destruct (trimStart_head s) as [->|(u & r & -> & Hu)]; [reflexivity|].
  simpl. now rewrite Hu.
Qed.

Lemma trimStart_snoc l u :
  is_whitespace u = false -> trimStart (l ++ [u]) = trimStart l ++ [u].
Proof.
  intros Hu. induction l as [|x l IH]; simpl; [now rewrite Hu|].
  destruct (is_whitespace x); [exact IH | reflexivity].
Qed.

Lemma trimEnd_cons u r :
  is_whitespace u = false -> trimEnd (u :: r) = u :: trimEnd r.
Proof.
  intros Hu. unfold trimEnd. simpl rev.
  now rewrite (trimStart_snoc _ _ Hu), rev_app_distr.
Qed.

Lemma trimEnd_idem s : trimEnd (trimEnd s) = trimEnd s.
Proof. unfold trimEnd. now rewrite rev_involutive, trimStart_idem. Qed.

(** A trimmed string has no white space at either end: trimming it again
    changes nothing. *)
Lemma trim_idem s : trim (trim s) = trim s.
Proof.
  unfold trim.
  destruct (trimStart_head s) as [->|(u & r & -> & Hu)]; [reflexivity|].
  rewrite (trimEnd_cons _ _ Hu). simpl trimStart. rewrite Hu.
  rewrite (trimEnd_cons _ _ Hu). now rewrite trimEnd_idem.
Qed.

(** ** What a turn puts on the socket *)

Section Frames.

Import ChatWebSocket.

Lemma lit_cons_nonempty c s : lit (String c s) <> [].
Proof. discriminate. Qed.

Lemma catch_block_frames c error :
  frames (snd (catch_block c error)) = []
  \/ (readyState c = 1%N
      /\ exists m, m <> []
                   /\ frames (snd (catch_block c error)) = [error_event m]).
Proof.
  unfold catch_block, safeSend. cbn [snd].
  destruct (readyState c =? 1)%N eqn:Hrs; [|now left].
  apply N.eqb_eq in Hrs. right. split; [exact Hrs|].
  destruct (err_message error) as [|u r]; eexists; (split; [|reflexivity]);
    discriminate.
Qed.

Lemma safeSend_error_frames c (m : string) :
  m <> EmptyString ->
  frames (safeSend c (error_event m)) = []
  \/ (readyState c = 1%N
      /\ exists m', m' <> [] /\ frames (safeSend c (error_event m)) = [error_event m']).
Proof.
  intros Hm. unfold safeSend.
  destruct (readyState c =? 1)%N eqn:Hrs; [|now left].
  apply N.eqb_eq in Hrs. right. split; [exact Hrs|].
  exists (lit m). split; [|reflexivity].
  destruct m; [contradiction | discriminate].
Qed.

(** The frames of one turn: none, or a pong, or on an open socket one
    error event with a non-empty message or the frame of one update. *)
Lemma step_frames c i :
  frames (snd (step c i)) = []
  \/ frames (snd (step c i)) = [PONG_MSG]
  \/ (readyState c = 1%N
      /\ ((exists m, m <> [] /\ frames (snd (step c i)) = [error_event m])
          \/ exists update, wire_event update
                            = Some (hd JUndefined (frames (snd (step c i))))
                            /\ frames (snd (step c i))
                               = [hd JUndefined (frames (snd (step c i)))])).
Proof.
  assert (Herr : forall out,
            (out = [] \/ (readyState c = 1%N
                          /\ exists m, m <> [] /\ out = [error_event m])) ->
            out = [] \/ out = [PONG_MSG]
            \/ (readyState c = 1%N
                /\ ((exists m, m <> [] /\ out = [error_event m])
                    \/ exists update, wire_event update
                                      = Some (hd JUndefined out)
                                      /\ out = [hd JUndefined out]))).
  { intros out [->|(Hrs & m & Hm & ->)]; [now left|].
    right. right. split; [exact Hrs|]. left. now exists m. }
  destruct i as [msgStr parsed ctor|e update|e|e error|rs|]; cbn [step].
  - unfold on_message.
    destruct (MAX_MESSAGE_SIZE <? js_length msgStr)%N;
      [apply Herr, safeSend_error_frames; discriminate|].
    destruct parsed as [data|];
      [|apply Herr, safeSend_error_frames; discriminate].
    destruct (nullish data); [apply Herr, catch_block_frames|].
    destruct (is_str (prop data "type") "ping"); [right; now left|].
    destruct (is_str (prop data "type") "cancel");
      [left; now destruct (currentEngine c)|].
    destruct (isProcessing c);
      [apply Herr, safeSend_error_frames; discriminate|].
    destruct (query_of data) as [|u q];
      [apply Herr, safeSend_error_frames; discriminate|].
    destruct (50000 <? js_length (u :: q))%N;
      [apply Herr, safeSend_error_frames; discriminate|].
    destruct ctor as [|error]; [now left|].
    apply Herr.
    exact (catch_block_frames (set_session c true (currentEngine c)) error).
  - destruct (in_flight c e); [|now left].
    unfold on_update, safeSend.
    destruct (readyState c =? 1)%N eqn:Hrs; cbn [negb]; [|now left].
    apply N.eqb_eq in Hrs.
    destruct (wire_event update) as [payload|] eqn:Hw; [|now left].
    right. right. split; [exact Hrs|]. right. exists update. now split.
  - destruct (in_flight c e); now left.
  - destruct (in_flight c e); [|now left].
    unfold on_throw.
    pose proof (catch_block_frames (finally_block c) error) as H.
    destruct (catch_block (finally_block c) error) as [c' out].
    cbn [snd] in *. apply Herr. exact H.
  - now left.
  - unfold on_close. destruct (currentEngine c); now left.
Qed.

(** The [type] of an update's frame. *)
Lemma wire_event_type update payload :
  wire_event update = Some payload ->
  prop payload "type" = JStr "state_update"
  \/ prop payload "type" = JStr "expert_complete"
  \/ prop payload "type" = JStr "complete".
Proof.
  unfold wire_event.
  destruct (is_str (u_type update) "node_start");
    [intros [= <-]; now left|].
  destruct (is_str (u_type update) "expert_complete");
    [intros [= <-]; right; now left|].
  destruct (is_str (u_type update) "node_complete").
  { destruct (is_str (u_node update) "search"
              && truthy (opt_prop (u_state update) "searchResults"));
      intros [= <-]; now left. }
  destruct (is_str (u_type update) "complete"); [|discriminate].
  intros [= <-]. right. now right.
Qed.

End Frames.

Section Traces.

Import ChatWebSocket.

Lemma run_cons c i rest :
  run c (i :: rest)
  = (fst (run (fst (step c i)) rest),
     snd (step c i) ++ snd (run (fst (step c i)) rest)).
Proof.
  cbn [run]. destruct (step c i) as [c1 out1].
  cbn [fst snd]. now destruct (run c1 rest).
Qed.

(** Whatever a trace does, one of its turns did. *)
Lemma run_In c inputs a :
  In a (snd (run c inputs)) ->
  exists c' i, In i inputs /\ In a (snd (step c' i)).
Proof.
  revert c. induction inputs as [|i rest IH]; intros c; [contradiction|].
  rewrite run_cons. cbn [snd]. intros H. apply in_app_or in H as [H|H].
  - exists c, i. split; [now left | exact H].
  - destruct (IH _ H) as (c' & i' & Hin & Ha).
    exists c', i'. split; [now right | exact Ha].
Qed.

Lemma frames_In out p : In p (frames out) <-> In (SocketSend p) out.
Proof.
  unfold frames. rewrite in_flat_map. split.
  - intros (a & Ha & Hp). destruct a; simpl in Hp; try contradiction.
    destruct Hp as [<-|[]]. exact Ha.
  - intros H. exists (SocketSend p). split; [exact H | now left].
Qed.

Lemma step_frame_cases c i p :
  In p (frames (snd (step c i))) ->
  p = PONG_MSG
  \/ (readyState c = 1%N
      /\ ((exists m, m <> [] /\ p = error_event m)
          \/ exists update, wire_event update = Some p)).
Proof.
  intros Hp.
  destruct (step_frames c i) as [H|[H|(Hrs & [(m & Hm & H)|(u & Hu & H)])]];
    rewrite H in Hp.
  - contradiction.
  - destruct Hp as [<-|[]]. now left.
  - destruct Hp as [<-|[]]. right. split; [exact Hrs|]. left. now exists m.
  - destruct Hp as [<-|[]]. right. split; [exact Hrs|]. right. now exists u.
Qed.

End Traces.

(** X1: as long as no message with the JSON text [null] comes in, whatever
    else the client, the engines and the socket do, at most one run is in
    flight on a connection, and [isProcessing] is true exactly while one
    is. *)
Theorem plain_traces_keep_one_run inputs :
  forallb ChatWebSocket.plain inputs = true ->
  List.length (ChatWebSocket.running
                 (fst (ChatWebSocket.run ChatWebSocket.connect inputs))) <= 1
  /\ (ChatWebSocket.isProcessing
        (fst (ChatWebSocket.run ChatWebSocket.connect inputs)) = true
      <-> ChatWebSocket.running
            (fst (ChatWebSocket.run ChatWebSocket.connect inputs)) <> []).
Proof.
  intros Hall.
  destruct (one_run_without_null_messages inputs Hall) as [Hok Hlen].
  split; [exact Hlen|].
  unfold ChatWebSocket.session_ok in Hok.
  destruct (ChatWebSocket.running
              (fst (ChatWebSocket.run ChatWebSocket.connect inputs)))
    as [|e0 [|e1 r]]; [| |contradiction].
  - destruct Hok as [Hp _]. rewrite Hp. split; [discriminate | congruence].
  - destruct Hok as [Hp _]. rewrite Hp. split; [discriminate | reflexivity].
Qed.

Lemma plain_traces_keep_one_run_witness :
  List.length
    (ChatWebSocket.running
       (fst (ChatWebSocket.run ChatWebSocket.connect
               [ChatWebSocket.Message Samples.hi_raw (Some Samples.hi)
                  ChatWebSocket.CtorOk;
                ChatWebSocket.Message Samples.again_raw (Some Samples.again)
                  ChatWebSocket.CtorOk;
                ChatWebSocket.Yield 0 Samples.node_start_update]))) <= 1.
Proof.
  exact (proj1 (plain_traces_keep_one_run
                  [ChatWebSocket.Message Samples.hi_raw (Some Samples.hi)
                     ChatWebSocket.CtorOk;
                   ChatWebSocket.Message Samples.again_raw
                     (Some Samples.again) ChatWebSocket.CtorOk;
                   ChatWebSocket.Yield 0 Samples.node_start_update]
                  eq_refl)).
Defined.

(** What a turn writes on a socket that is not open. *)
Lemma closed_socket_frames c i :
  ChatWebSocket.readyState c <> 1%N ->
  ChatWebSocket.frames (snd (ChatWebSocket.step c i))
  = match i with
    | ChatWebSocket.Message msgStr (Some data) _ =>
        if (ChatWebSocket.MAX_MESSAGE_SIZE <? js_length msgStr)%N then []
        else if nullish data then []
        else if is_str (prop data "type") "ping"
             then [ChatWebSocket.PONG_MSG]
             else []
    | _ => []
    end.
Proof.
  intros Hrs. apply N.eqb_neq in Hrs.
  destruct i as [msgStr parsed ctor|e update|e|e error|rs|];
    cbn [ChatWebSocket.step].
  - unfold ChatWebSocket.on_message, ChatWebSocket.catch_block,
      ChatWebSocket.safeSend.
    cbn [ChatWebSocket.readyState ChatWebSocket.set_session].
    rewrite Hrs.
    destruct (ChatWebSocket.MAX_MESSAGE_SIZE <? js_length msgStr)%N;
      [now destruct parsed|].
    destruct parsed as [data|]; [|reflexivity].
    destruct (nullish data); [reflexivity|].
    destruct (is_str (prop data "type") "ping"); [reflexivity|].
    destruct (is_str (prop data "type") "cancel");
      [now destruct (ChatWebSocket.currentEngine c)|].
    destruct (ChatWebSocket.isProcessing c); [reflexivity|].
    destruct (ChatWebSocket.query_of data) as [|u q]; [reflexivity|].
    destruct (50000 <? js_length (u :: q))%N; [reflexivity|].
    now destruct ctor.
  - destruct (ChatWebSocket.in_flight c e); [|reflexivity].
    unfold ChatWebSocket.on_update. now rewrite Hrs.
  - now destruct (ChatWebSocket.in_flight c e).
  - destruct (ChatWebSocket.in_flight c e); [|reflexivity].
    unfold ChatWebSocket.on_throw, ChatWebSocket.catch_block,
      ChatWebSocket.safeSend.
    cbn [ChatWebSocket.readyState ChatWebSocket.finally_block
         ChatWebSocket.set_session].
    now rewrite Hrs.
  - reflexivity.
  - unfold ChatWebSocket.on_close.
    now destruct (ChatWebSocket.currentEngine c).
Qed.

(** X2: on a socket that is not open the transport writes nothing but the
    pong.  Every event that goes through [safeSend] is dropped, whereas the
    answer to a ping is handed to [socket.send] unguarded: a turn writes the
    pong exactly when it handles a ping command (a message within the size
    limit whose [type] is ["ping"]), and writes nothing in every other
    case. *)
Theorem closed_socket_gets_only_pongs c i :
  ChatWebSocket.readyState c <> 1%N ->
  (ChatWebSocket.frames (snd (ChatWebSocket.step c i)) = []
   \/ ChatWebSocket.frames (snd (ChatWebSocket.step c i))
      = [ChatWebSocket.PONG_MSG])
  /\ (ChatWebSocket.frames (snd (ChatWebSocket.step c i))
      = [ChatWebSocket.PONG_MSG]
      <-> exists msgStr data ctor,
            i = ChatWebSocket.Message msgStr (Some data) ctor
            /\ (js_length msgStr <= ChatWebSocket.MAX_MESSAGE_SIZE)%N
            /\ is_str (prop data "type") "ping" = true)
  /\ (ChatWebSocket.frames (snd (ChatWebSocket.step c i)) = []
      <-> ~ exists msgStr data ctor,
              i = ChatWebSocket.Message msgStr (Some data) ctor
              /\ (js_length msgStr <= ChatWebSocket.MAX_MESSAGE_SIZE)%N
              /\ is_str (prop data "type") "ping" = true).
Proof.
  intros Hrs. rewrite (closed_socket_frames c i Hrs).
  assert (Hping : forall data, is_str (prop data "type") "ping" = true ->
                               nullish data = false)
    by (intros data; destruct data; trivial; discriminate).
  destruct i as [msgStr [data|] ctor|e update|e|e error|rs|];
    try (split; [now left|];
         split; (split; [try discriminate; intros _
                        |try reflexivity;
                         intros (m & d & k & Hi & _); discriminate]);
         intros (m & d & k & Hi & _); discriminate).
  destruct (ChatWebSocket.MAX_MESSAGE_SIZE <? js_length msgStr)%N eqn:Hsize.
  { apply N.ltb_lt in Hsize. split; [now left|].
    split; (split; [try discriminate; intros _ | try reflexivity]);
      intros (m & d & k & [= <- <- <-] & Hle & _); lia. }
  apply N.ltb_ge in Hsize.
  destruct (is_str (prop data "type") "ping") eqn:Ht.
  - rewrite (Hping data Ht). split; [now right|].
    split; split.
    + intros _. now exists msgStr, data, ctor.
    + reflexivity.
    + discriminate.
    + intros Hno. exfalso. apply Hno. now exists msgStr, data, ctor.
  - assert (Hnone : ~ exists m d k,
              ChatWebSocket.Message msgStr (Some data) ctor
              = ChatWebSocket.Message m (Some d) k
              /\ (js_length m <= ChatWebSocket.MAX_MESSAGE_SIZE)%N
              /\ is_str (prop d "type") "ping" = true).
    { intros (m & d & k & [= <- <- <-] & _ & Hp). congruence. }
    destruct (nullish data); (split; [now left|]);
      (split; split; [discriminate | intros H; now elim Hnone
                     | intros _; exact Hnone | reflexivity]).
Qed.

Lemma closed_socket_gets_only_pongs_witness :
  ChatWebSocket.frames
    (snd (ChatWebSocket.step Samples.busy_closing
            (ChatWebSocket.Message Samples.ping_raw (Some Samples.ping)
               ChatWebSocket.CtorOk)))
  = [ChatWebSocket.PONG_MSG]
  /\ ChatWebSocket.frames
       (snd (ChatWebSocket.step Samples.busy_closing
               (ChatWebSocket.Message Samples.blank_query_raw
                  (Some Samples.blank_query) ChatWebSocket.CtorOk)))
     = [].
Proof.
  split.
  - apply (closed_socket_gets_only_pongs Samples.busy_closing);
      [discriminate|].
    exists Samples.ping_raw, Samples.ping, ChatWebSocket.CtorOk.
    split; [reflexivity|]. split; [vm_compute; discriminate | reflexivity].
  - apply (closed_socket_gets_only_pongs Samples.busy_closing);
      [discriminate|].
    intros (m & d & k & [= <- <- <-] & _ & Hp). discriminate Hp.
Defined.

(** X3: every frame the transport ever writes on a connection is an object
    whose [type] is one of ["pong"], ["error"], ["state_update"],
    ["expert_complete"] and ["complete"], and a single turn (one message,
    one update, one socket event) writes at most one frame. *)
Theorem every_frame_has_a_known_type c inputs :
  (forall p,
     In p (ChatWebSocket.frames (snd (ChatWebSocket.run c inputs))) ->
     exists t, prop p "type" = JStr t /\ In t ChatWebSocket.wire_types)
  /\ forall c' i,
       List.length (ChatWebSocket.frames (snd (ChatWebSocket.step c' i))) <= 1.
Proof.
  split.
  - intros p Hp. apply frames_In in Hp.
    destruct (run_In _ _ _ Hp) as (c' & i & _ & Hstep).
    apply frames_In in Hstep.
    destruct (step_frame_cases _ _ _ Hstep)
      as [->|(_ & [(m & _ & ->)|(u & Hu)])].
    + exists (lit "pong"). split; [reflexivity | now left].
    + exists (lit "error"). split; [reflexivity | right; now left].
    + destruct (wire_event_type _ _ Hu) as [H|[H|H]]; rewrite H;
        eexists; (split; [reflexivity|]); simpl; auto 6.
  - intros c' i.
    destruct (step_frames c' i) as [H|[H|(_ & [(m & _ & H)|(u & _ & H)])]];
      rewrite H; simpl; lia.
Qed.



Section Queries.

Import ChatWebSocket.

Lemma query_of_trimmed data : trim (query_of data) = query_of data.
Proof.
  unfold query_of. destruct (prop data "query"); try reflexivity.
  apply trim_idem.
Qed.

(** Only the ['message'] handler calls the engine's constructor and
    [stream]. *)
Lemma step_engine_call c i a :
  In a (snd (step c i)) -> is_engine_call a = true ->
  exists msgStr parsed ctor,
    i = Message msgStr parsed ctor
    /\ In a (snd (on_message c msgStr parsed ctor)).
Proof.
  destruct i as [msgStr parsed ctor|e update|e|e error|rs|]; cbn [step];
    intros Hin Hcall.
  - now exists msgStr, parsed, ctor.
  - exfalso. destruct (in_flight c e); [|contradiction].
    unfold on_update, safeSend in Hin.
    destruct (negb (readyState c =? 1)%N), (readyState c =? 1)%N,
      (wire_event update); simpl in Hin;
      intuition (subst; discriminate).
  - exfalso. destruct (in_flight c e); contradiction.
  - exfalso. destruct (in_flight c e); [|contradiction].
    unfold on_throw, catch_block, safeSend in Hin.
    cbn [snd readyState finally_block set_session] in Hin.
    destruct (readyState c =? 1)%N; simpl in Hin;
      intuition (subst; discriminate).
  - contradiction.
  - exfalso. unfold on_close in Hin.
    destruct (currentEngine c); simpl in Hin;
      intuition (subst; discriminate).
Qed.

End Queries.

(** X5: whatever happens on a connection, a query reaches [engine.stream]
    only trimmed (no white space at either end), non-empty and at most
    50,000 code units long. *)
Theorem engine_receives_trimmed_bounded_query c inputs e query streamConfig :
  In (ChatWebSocket.Stream e query streamConfig)
     (snd (ChatWebSocket.run c inputs)) ->
  query <> []
  /\ (js_length query <= 50000)%N
  /\ trim query = query.
Proof.
  intros Hin.
  destruct (run_In _ _ _ Hin) as (c' & i & _ & Hstep).
  destruct (step_engine_call _ _ _ Hstep eq_refl)
    as (msgStr & parsed & ctor & -> & Hmsg).
  destruct (on_message_engine_call _ _ _ _ _ Hmsg eq_refl)
    as (data & _ & _ & _ & _ & _ & _ & Hq & Hlen & _ & Heq).
  rewrite Heq in Hmsg. cbn [snd] in Hmsg.
  destruct Hmsg as [Hmsg|[Hmsg|[]]]; [discriminate|].
  injection Hmsg as _ <- _.
  split; [exact Hq|]. split; [exact Hlen|]. apply query_of_trimmed.
Qed.

Lemma engine_receives_trimmed_bounded_query_witness :
  lit "hi" <> [] /\ (js_length (lit "hi") <= 50000)%N
  /\ trim (lit "hi") = lit "hi".
Proof.
  apply (engine_receives_trimmed_bounded_query ChatWebSocket.connect
           [ChatWebSocket.Message Samples.hi_raw (Some Samples.hi)
              ChatWebSocket.CtorOk]
           0 (lit "hi") (JObj [fld "maxRounds" (JNum 1%float)])).
  right. left. reflexivity.
Defined.

(** X6: the exact condition under which a message starts a run.  The
    handler constructs an engine and calls [stream] if and only if the raw
    text is at most 1 MiB long, parses to a value other than [null], is
    neither a ping nor a cancel command, arrives on a session that is not
    processing, carries a string query that is non-empty and at most 50,000
    code units long after trimming, and the constructor returns; both limits
    are inclusive. *)
Theorem engine_called_iff_guards_pass c msgStr parsed ctor :
  (exists a,
     In a (snd (ChatWebSocket.on_message c msgStr parsed ctor))
     /\ ChatWebSocket.is_engine_call a = true)
  <-> ((js_length msgStr <= ChatWebSocket.MAX_MESSAGE_SIZE)%N
       /\ exists data,
            parsed = Some data
            /\ nullish data = false
            /\ is_str (prop data "type") "ping" = false
            /\ is_str (prop data "type") "cancel" = false
            /\ ChatWebSocket.isProcessing c = false
            /\ ChatWebSocket.query_of data <> []
            /\ (js_length (ChatWebSocket.query_of data) <= 50000)%N
            /\ ctor = ChatWebSocket.CtorOk).
Proof.
  split.
  - intros (a & Hin & Hcall).
    destruct (on_message_engine_call _ _ _ _ _ Hin Hcall)
      as (data & Hp & Hsize & Hnull & Hping & Hcancel & Hproc & Hq & Hlen
          & Hctor & _).
    split; [exact Hsize|]. exists data. repeat split; assumption.
  - intros (Hsize & data & -> & Hnull & Hping & Hcancel & Hproc & Hq & Hlen
            & ->).
    exists (ChatWebSocket.NewEngine (ChatWebSocket.nextEngine c)).
    rewrite (idle_session_accepts_query c msgStr data
               Hproc Hsize Hnull Hping Hcancel Hq Hlen).
    split; [now left | reflexivity].
Qed.

(** X7: a cancel command does not free the session.  It aborts the current
    engine, but [isProcessing] stays set until the stream of that engine
    ends; a query that follows the cancel directly is still answered with
    the already-processing error and starts nothing. *)
Theorem cancel_keeps_session_busy
    c msgStr1 data1 ctor1 msgStr2 data2 ctor2 :
  ChatWebSocket.isProcessing c = true ->
  (js_length msgStr1 <= ChatWebSocket.MAX_MESSAGE_SIZE)%N ->
  is_str (prop data1 "type") "cancel" = true ->
  (js_length msgStr2 <= ChatWebSocket.MAX_MESSAGE_SIZE)%N ->
  nullish data2 = false ->
  is_str (prop data2 "type") "ping" = false ->
  is_str (prop data2 "type") "cancel" = false ->
  ChatWebSocket.run c
    [ChatWebSocket.Message msgStr1 (Some data1) ctor1;
     ChatWebSocket.Message msgStr2 (Some data2) ctor2]
  = (c,
     match ChatWebSocket.currentEngine c with
     | Some e => [ChatWebSocket.Abort e]
     | None => []
     end
     ++ ChatWebSocket.safeSend c
          (ChatWebSocket.error_event
             "Already processing a query. Please wait or send cancel.")).
Proof.
  intros Hbusy Hsize1 Hcancel Hsize2 Hnull Hping Hnocancel.
  assert (H1 : ChatWebSocket.on_message c msgStr1 (Some data1) ctor1
               = (c, match ChatWebSocket.currentEngine c with
                     | Some e => [ChatWebSocket.Abort e]
                     | None => []
                     end)).
  { unfold ChatWebSocket.on_message. apply N.ltb_ge in Hsize1.
    rewrite Hsize1.
    assert (Hn : nullish data1 = false)
      by (destruct data1; trivial; discriminate).
    rewrite Hn, (is_str_eq _ _ Hcancel). reflexivity. }
  rewrite run_cons. cbn [ChatWebSocket.step]. rewrite H1. cbn [fst snd].
  rewrite run_cons. cbn [ChatWebSocket.step ChatWebSocket.run fst snd].
  rewrite (busy_session_rejects_query c msgStr2 data2 ctor2
             Hsize2 Hnull Hping Hnocancel Hbusy).
  cbn [fst snd]. now rewrite app_nil_r.
Qed.

Lemma cancel_keeps_session_busy_witness :
  ChatWebSocket.run Samples.busy
    [ChatWebSocket.Message Samples.cancel_raw (Some Samples.cancel)
       ChatWebSocket.CtorOk;
     ChatWebSocket.Message Samples.again_raw (Some Samples.again)
       ChatWebSocket.CtorOk]
  = (Samples.busy,
     [ChatWebSocket.Abort 0;
      ChatWebSocket.SocketSend
        (ChatWebSocket.error_event
           "Already processing a query. Please wait or send cancel.")]).
Proof.
  apply (cancel_keeps_session_busy Samples.busy
           Samples.cancel_raw Samples.cancel ChatWebSocket.CtorOk
           Samples.again_raw Samples.again ChatWebSocket.CtorOk);
    vm_compute; try reflexivity; discriminate.
Defined.

(** X8: when the client disconnects during a run, [abort()] is called on
    the same engine twice: once by the ['close'] handler, and once more by
    the loop when the engine's next update finds the socket no longer open;
    the loop then stops consuming and leaves the session idle. *)
Theorem disconnect_aborts_engine_twice c e update rs :
  ChatWebSocket.in_flight c e = true ->
  ChatWebSocket.currentEngine c = Some e ->
  rs <> 1%N ->
  snd (ChatWebSocket.run c
         [ChatWebSocket.SocketState rs; ChatWebSocket.Close;
          ChatWebSocket.Yield e update])
  = [ChatWebSocket.Abort e; ChatWebSocket.Abort e; ChatWebSocket.Return e]
  /\ ChatWebSocket.isProcessing
       (fst (ChatWebSocket.run c
               [ChatWebSocket.SocketState rs; ChatWebSocket.Close;
                ChatWebSocket.Yield e update])) = false
  /\ ChatWebSocket.in_flight
       (fst (ChatWebSocket.run c
               [ChatWebSocket.SocketState rs; ChatWebSocket.Close;
                ChatWebSocket.Yield e update])) e = false.
Proof.
  intros Hin Hcur Hrs.
  rewrite run_cons. cbn [ChatWebSocket.step fst snd].
  rewrite run_cons. cbn [ChatWebSocket.step].
  unfold ChatWebSocket.on_close.
  cbn [ChatWebSocket.currentEngine ChatWebSocket.set_readyState].
  rewrite Hcur. cbn [fst snd].
  rewrite run_cons. cbn [ChatWebSocket.run fst snd].
  rewrite (closed_socket_aborts_and_stops _ e update).
  - cbn [fst snd]. split; [reflexivity|]. split; [reflexivity|].
    apply leave_not_in_flight.
  - exact Hin.
  - exact Hrs.
Qed.

Lemma disconnect_aborts_engine_twice_witness :
  snd (ChatWebSocket.run Samples.busy
         [ChatWebSocket.SocketState 3; ChatWebSocket.Close;
          ChatWebSocket.Yield 0 Samples.node_start_update])
  = [ChatWebSocket.Abort 0; ChatWebSocket.Abort 0; ChatWebSocket.Return 0].
Proof.
  apply (disconnect_aborts_engine_twice Samples.busy 0
           Samples.node_start_update 3); [reflexivity | reflexivity |].
  discriminate.
Defined.

(* ================================================================== *)
(** * Further properties of the provider factory *)
(* ================================================================== *)

Section FactoryExtras.

Import LLMFactory.

Lemma cache_get_None k m : cache_get k m = None <-> ~ In k (map fst m).
Proof.
  induction m as [|[k' v] r IH]; simpl; [tauto|].
  destruct (jsstring_eqb k k') eqn:E.
  - apply jsstring_eqb_eq in E. subst. split; [discriminate | tauto].
  - apply jsstring_eqb_neq in E. rewrite IH. split.
    + intros H [H'|H']; [now apply E | now apply H].
    + tauto.
Qed.

Lemma NoDup_snoc {A} (l : list A) x : NoDup l -> ~ In x l -> NoDup (l ++ [x]).
Proof.
  induction 1 as [|a l Ha Hl IH]; intros Hx; simpl.
  - constructor; [tauto | constructor].
  - constructor.
    + rewrite in_app_iff. intros [H|[H|[]]]; [tauto|].
      apply Hx. now left.
    + apply IH. intros H. apply Hx. now right.
Qed.

Lemma createLLM_keys_unique f stored customConfig :
  factory_ok f -> keys_unique (cache f) ->
  keys_unique (cache (snd (createLLM f stored customConfig))).
Proof.
  intros (Hkeys & _ & _) Huniq.
  destruct (falsy (apiKey (effective stored customConfig))) eqn:Hkey.
  { unfold createLLM. now rewrite Hkey. }
  destruct (cache_get (getCacheKey (effective stored customConfig)) (cache f))
    as [cached|] eqn:Hget.
  { unfold createLLM. now rewrite Hkey, Hget. }
  destruct (createLLM_miss f stored customConfig Hkeys Hkey Hget)
    as (p & -> & _).
  cbn [snd cache]. unfold keys_unique in *. rewrite map_app. cbn [map fst].
  apply cache_get_None in Hget.
  destruct (MAX_CACHE_SIZE <=? cache_size (cache f))%nat.
  - destruct (cache f) as [|kv r]; cbn [tl map] in *.
    + apply NoDup_snoc; [constructor | tauto].
    + inversion Huniq; subst. apply NoDup_snoc; [assumption|].
      intros H. apply Hget. now right.
  - now apply NoDup_snoc.
Qed.

Lemma calls_keys_unique cs : forall f,
  factory_ok f -> keys_unique (cache f) -> keys_unique (cache (calls f cs)).
Proof.
  induction cs as [|c cs IH]; intros f Hok Hu; [exact Hu|].
  cbn [calls fold_left]. destruct c as [stored customConfig|]; cbn [call].
  - apply IH; [now apply createLLM_ok | now apply createLLM_keys_unique].
  - apply IH; [apply clearCache_ok | constructor].
Qed.

Lemma createLLM_effective f stored customConfig :
  createLLM f stored customConfig
  = createLLM f stored (Some (effective stored customConfig)).
Proof. now destruct customConfig. Qed.

(** Up to the first separator a key is read in one way only. *)
Lemma split_at_colon (a b x y : jsstring) :
  colon_free a -> colon_free b ->
  a ++ 58%N :: x = b ++ 58%N :: y -> a = b /\ x = y.
Proof.
  unfold colon_free. revert b.
  induction a as [|u a IH]; intros [|v b] Ha Hb H; simpl in H.
  - injection H as ->. now split.
  - injection H as <- _. exfalso. apply Hb. now left.
  - injection H as -> _. exfalso. apply Ha. now left.
  - injection H as -> H.
    destruct (IH b) as [-> ->]; auto.
    + intros Hin. apply Ha. now right.
    + intros Hin. apply Hb. now right.
Qed.

End FactoryExtras.

(** X9: asking twice for the same config gives the same provider instance:
    after any history of the class, a [createLLM] call that succeeds
    leaves a state in which the same call returns the very same instance
    and changes nothing, so nothing is constructed the second time. *)
Theorem repeated_createLLM_reuses_instance cs stored customConfig p f1 :
  LLMFactory.createLLM (LLMFactory.calls LLMFactory.empty_factory cs)
    stored customConfig = (inr p, f1) ->
  LLMFactory.createLLM f1 stored customConfig = (inr p, f1).
Proof.
  intros H.
  destruct (calls_ok cs _ empty_factory_ok) as (Hkeys & _ & _).
  rewrite createLLM_effective in H |- *.
  apply (same_key_same_instance
           (LLMFactory.calls LLMFactory.empty_factory cs) stored
           (LLMFactory.effective stored customConfig)
           (LLMFactory.effective stored customConfig) p f1 eq_refl);
    [|exact Hkeys | exact H].
  unfold LLMFactory.createLLM in H. cbn [LLMFactory.effective] in H.
  destruct (LLMFactory.falsy
              (LLMFactory.apiKey (LLMFactory.effective stored customConfig)));
    [discriminate | reflexivity].
Qed.

Lemma repeated_createLLM_reuses_instance_witness :
  LLMFactory.createLLM
    (LLMFactory.mkFactory
       [(lit "openai:sk-1::gpt-4o",
         LLMFactory.mkProvider 0 (Some (lit "sk-1")) None
           (Some (lit "gpt-4o")))] 1)
    Samples.no_key (Some Samples.plain_config)
  = (inr (LLMFactory.mkProvider 0 (Some (lit "sk-1")) None
            (Some (lit "gpt-4o"))),
     LLMFactory.mkFactory
       [(lit "openai:sk-1::gpt-4o",
         LLMFactory.mkProvider 0 (Some (lit "sk-1")) None
           (Some (lit "gpt-4o")))] 1).
Proof.
  apply (repeated_createLLM_reuses_instance [] Samples.no_key
           (Some Samples.plain_config)).
  reflexivity.
Defined.

(** X10: [clearCache] makes the next [createLLM] construct a new provider:
    after any history, clearing and then asking for a config with a key
    gives an instance that is none of those cached before, and the cache
    then holds that one entry. *)
Theorem clearCache_forces_new_instance cs stored customConfig :
  LLMFactory.falsy
    (LLMFactory.apiKey (LLMFactory.effective stored customConfig)) = false ->
  exists p,
    LLMFactory.createLLM
      (LLMFactory.clearCache (LLMFactory.calls LLMFactory.empty_factory cs))
      stored customConfig
    = (inr p,
       LLMFactory.mkFactory
         [(LLMFactory.getCacheKey (LLMFactory.effective stored customConfig), p)]
         (S (LLMFactory.constructed
               (LLMFactory.calls LLMFactory.empty_factory cs))))
    /\ forall kv,
         In kv (LLMFactory.cache (LLMFactory.calls LLMFactory.empty_factory cs)) ->
         LLMFactory.instance (snd kv) <> LLMFactory.instance p.
Proof.
  intros Hkey.
  destruct (calls_ok cs _ empty_factory_ok) as (_ & _ & _ & Hold).
  destruct (createLLM_miss
              (LLMFactory.clearCache
                 (LLMFactory.calls LLMFactory.empty_factory cs))
              stored customConfig) as (p & Hp & Hinst & _);
    [constructor | exact Hkey | reflexivity |].
  exists p. split; [exact Hp|].
  intros kv Hin. rewrite Forall_forall in Hold. specialize (Hold kv Hin).
  rewrite Hinst. cbn [LLMFactory.clearCache LLMFactory.constructed] in *. lia.
Qed.

Lemma clearCache_forces_new_instance_witness :
  exists p,
    LLMFactory.createLLM
      (LLMFactory.clearCache
         (LLMFactory.calls LLMFactory.empty_factory (Samples.numbered_calls 3)))
      Samples.no_key (Some (Samples.numbered 0))
    = (inr p,
       LLMFactory.mkFactory
         [(LLMFactory.getCacheKey (Samples.numbered 0), p)]
         (S (LLMFactory.constructed
               (LLMFactory.calls LLMFactory.empty_factory
                  (Samples.numbered_calls 3)))))
    /\ forall kv,
         In kv (LLMFactory.cache
                  (LLMFactory.calls LLMFactory.empty_factory
                     (Samples.numbered_calls 3))) ->
         LLMFactory.instance (snd kv) <> LLMFactory.instance p.
Proof.
  apply (clearCache_forces_new_instance (Samples.numbered_calls 3)
           Samples.no_key (Some (Samples.numbered 0))).
  reflexivity.
Defined.

(** X11: the eviction is first-in first-out, not least-recently-used.  When
    the cache is full, a hit on its oldest entry does not protect that
    entry: the next call that misses drops it all the same, so the config
    that was just served is no longer cached. *)
Theorem hit_does_not_protect_oldest_entry
    cs stored hit miss k0 p0 rest :
  LLMFactory.cache (LLMFactory.calls LLMFactory.empty_factory cs)
  = (k0, p0) :: rest ->
  LLMFactory.cache_size
    (LLMFactory.cache (LLMFactory.calls LLMFactory.empty_factory cs))
  = LLMFactory.MAX_CACHE_SIZE ->
  LLMFactory.falsy (LLMFactory.apiKey hit) = false ->
  LLMFactory.getCacheKey hit = k0 ->
  LLMFactory.falsy (LLMFactory.apiKey miss) = false ->
  LLMFactory.cache_get (LLMFactory.getCacheKey miss)
    (LLMFactory.cache (LLMFactory.calls LLMFactory.empty_factory cs)) = None ->
  LLMFactory.createLLM (LLMFactory.calls LLMFactory.empty_factory cs)
    stored (Some hit)
  = (inr p0, LLMFactory.calls LLMFactory.empty_factory cs)
  /\ LLMFactory.cache_get k0
       (LLMFactory.cache
          (snd (LLMFactory.createLLM
                  (snd (LLMFactory.createLLM
                          (LLMFactory.calls LLMFactory.empty_factory cs)
                          stored (Some hit)))
                  stored (Some miss)))) = None.
Proof.
  intros Hcache Hfull Hhit Hk0 Hmiss Hget.
  destruct (calls_ok cs _ empty_factory_ok) as (Hkeys & _ & _).
  pose proof (calls_keys_unique cs _ empty_factory_ok (NoDup_nil _)) as Huniq.
  assert (H1 : LLMFactory.createLLM
                 (LLMFactory.calls LLMFactory.empty_factory cs)
                 stored (Some hit)
               = (inr p0, LLMFactory.calls LLMFactory.empty_factory cs)).
  { unfold LLMFactory.createLLM. cbn [LLMFactory.effective].
    rewrite Hhit, Hk0, Hcache. cbn [LLMFactory.cache_get].
    now rewrite jsstring_eqb_refl. }
  split; [exact H1|]. rewrite H1. cbn [snd].
  destruct (createLLM_miss _ stored (Some miss) Hkeys Hmiss Hget)
    as (p & -> & _).
  cbn [snd LLMFactory.cache LLMFactory.effective].
  rewrite Hfull, Nat.leb_refl, Hcache. cbn [tl].
  apply cache_get_None. rewrite map_app, in_app_iff. cbn [map fst In].
  unfold LLMFactory.keys_unique in Huniq. rewrite Hcache in Huniq, Hget.
  cbn [map fst] in Huniq. inversion Huniq as [|? ? Hnotin _]; subst.
  intros [H|[H|[]]]; [now apply Hnotin|].
  apply cache_get_None in Hget. apply Hget. left. now symmetry.
Qed.

Lemma hit_does_not_protect_oldest_entry_witness :
  LLMFactory.cache_get (LLMFactory.getCacheKey (Samples.numbered 0))
    (LLMFactory.cache
       (snd (LLMFactory.createLLM
               (snd (LLMFactory.createLLM
                       (LLMFactory.calls LLMFactory.empty_factory
                          (Samples.numbered_calls 20))
                       Samples.no_key (Some (Samples.numbered 0))))
               Samples.no_key (Some (Samples.numbered 20))))) = None.
Proof.
  refine (proj2 (hit_does_not_protect_oldest_entry
                   (Samples.numbered_calls 20) Samples.no_key
                   (Samples.numbered 0) (Samples.numbered 20)
                   (LLMFactory.getCacheKey (Samples.numbered 0))
                   (LLMFactory.mkProvider 0 (Some [65%N]) None None)
                   (tl (LLMFactory.cache
                          (LLMFactory.calls LLMFactory.empty_factory
                             (Samples.numbered_calls 20))))
                   _ _ _ _ _ _));
    vm_compute; reflexivity.
Defined.

(** X12: the cache key tells configs apart as long as the separator stays
    out of the first three fields.  If provider, key and endpoint of two
    configs contain no [:], equal cache keys mean equal provider (with the
    ["openai"] default), key, endpoint and model; the model may contain
    colons. *)
Theorem colon_free_configs_have_distinct_keys c1 c2 :
  LLMFactory.colon_free (LLMFactory.or_else (LLMFactory.provider c1) "openai") ->
  LLMFactory.colon_free (LLMFactory.or_else (LLMFactory.apiKey c1) []) ->
  LLMFactory.colon_free (LLMFactory.or_else (LLMFactory.baseUrl c1) []) ->
  LLMFactory.colon_free (LLMFactory.or_else (LLMFactory.provider c2) "openai") ->
  LLMFactory.colon_free (LLMFactory.or_else (LLMFactory.apiKey c2) []) ->
  LLMFactory.colon_free (LLMFactory.or_else (LLMFactory.baseUrl c2) []) ->
  LLMFactory.getCacheKey c1 = LLMFactory.getCacheKey c2 ->
  LLMFactory.or_else (LLMFactory.provider c1) "openai"
  = LLMFactory.or_else (LLMFactory.provider c2) "openai"
  /\ LLMFactory.or_else (LLMFactory.apiKey c1) []
     = LLMFactory.or_else (LLMFactory.apiKey c2) []
  /\ LLMFactory.or_else (LLMFactory.baseUrl c1) []
     = LLMFactory.or_else (LLMFactory.baseUrl c2) []
  /\ LLMFactory.or_else (LLMFactory.defaultModel c1) []
     = LLMFactory.or_else (LLMFactory.defaultModel c2) [].
Proof.
  intros Hp1 Hk1 Hu1 Hp2 Hk2 Hu2. unfold LLMFactory.getCacheKey.
  change (lit ":") with [58%N]. cbn [app]. intros H.
  apply split_at_colon in H as [Hp H]; [|assumption|assumption].
  apply split_at_colon in H as [Hk H]; [|assumption|assumption].
  apply split_at_colon in H as [Hu Hm]; [|assumption|assumption].
  now repeat split.
Qed.

Lemma colon_free_configs_have_distinct_keys_witness :
  LLMFactory.or_else (LLMFactory.provider Samples.plain_config) "openai"
  = LLMFactory.or_else (LLMFactory.provider Samples.plain_config_openai)
      "openai".
Proof.
  refine (proj1 (colon_free_configs_have_distinct_keys
                   Samples.plain_config Samples.plain_config_openai
                   _ _ _ _ _ _ eq_refl));
    unfold LLMFactory.colon_free; vm_compute; intuition discriminate.
Defined.

(* ================================================================== *)
(** * Properties of the process lifecycle *)
(* ================================================================== *)

Section Lifecycle.

Import Index.

Lemma index_run_cons p ev rest :
  run p (ev :: rest)
  = (fst (run (fst (step p ev)) rest),
     snd (step p ev) ++ snd (run (fst (step p ev)) rest)).
Proof.
  cbn [run]. destruct (step p ev) as [p1 out1].
  cbn [fst snd]. now destruct (run p1 rest).
Qed.

(** After [process.exit] nothing happens any more. *)
Lemma run_exited p evs code :
  exited p = Some code -> run p evs = (p, []).
Proof.
  intros He. induction evs as [|ev rest IH]; [reflexivity|].
  rewrite index_run_cons. unfold step. rewrite He. cbn [fst snd].
  now rewrite IH.
Qed.

Lemma occurrences_app f a b :
  occurrences f (a ++ b) = occurrences f a + occurrences f b.
Proof. unfold occurrences. now rewrite filter_app, length_app. Qed.

Lemma server_close_bound evs : forall p,
  occurrences is_server_close (snd (run p evs))
  <= if isShuttingDown p then 0 else 1.
Proof.
  induction evs as [|ev rest IH]; intros p.
  - cbn. destruct (isShuttingDown p); lia.
  - rewrite index_run_cons. cbn [snd]. rewrite occurrences_app.
    specialize (IH (fst (step p ev))). revert IH. unfold step, shutdown,
      shutdown_resume.
    destruct (exited p); [cbn; lia|].
    destruct ev as [s|ok store| |]; destruct (isShuttingDown p) eqn:Hs;
      try destruct (closing p); cbn; rewrite ?Hs; lia.
Qed.

Lemma exit_bound evs : forall p,
  occurrences is_exit (snd (run p evs))
  <= match exited p with Some _ => 0 | None => 1 end
  /\ occurrences is_store_close (snd (run p evs))
     <= match exited p with Some _ => 0 | None => 1 end.
Proof.
  induction evs as [|ev rest IH]; intros p.
  - cbn. destruct (exited p); lia.
  - rewrite index_run_cons. cbn [snd]. rewrite !occurrences_app.
    specialize (IH (fst (step p ev))). revert IH. unfold step, shutdown,
      shutdown_resume.
    destruct (exited p) eqn:He; [cbn; rewrite He; lia|].
    destruct ev as [s|ok store| |]; try destruct (isShuttingDown p);
      try destruct (closing p); cbn; rewrite ?He; lia.
Qed.

(** A graceful exit in the effects of a run: the shutdown went through. *)
Lemma graceful_exit_shape evs : forall p acc,
  exited p = None ->
  (closing p = true -> In ServerClose acc) ->
  In (Exit 0) (snd (run p evs)) ->
  exists pre (ok store : bool),
    acc ++ snd (run p evs)
    = pre ++ [Log (if ok then HttpServerClosed else HttpCloseError);
              ConfigStoreClose;
              Log (if store then DatabaseClosed else DatabaseCloseError);
              Exit 0]
    /\ In ServerClose pre
    /\ incl acc pre.
Proof.
  induction evs as [|ev rest IH]; intros p acc He Hc Hin; [contradiction|].
  rewrite index_run_cons in Hin |- *. cbn [snd] in Hin |- *.
  unfold step, shutdown, shutdown_resume in Hin |- *.
  rewrite He in Hin |- *.
  destruct ev as [s|ok store| |].
  - destruct (isShuttingDown p) eqn:Hs; cbn [fst snd app] in Hin |- *.
    + exact (IH p acc He Hc Hin).
    + destruct Hin as [Hin|[Hin|Hin]]; try discriminate.
      destruct (IH (mkProc true true None)
                   (acc ++ [Log (ReceivedSignal s); ServerClose]))
        as (pre & ok & store & Heq & Hsc & Hincl);
        [reflexivity | intros _; apply in_or_app; right; right; now left
        | exact Hin |].
      exists pre, ok, store. rewrite <- app_assoc in Heq.
      split; [exact Heq|]. split; [exact Hsc|].
      intros x Hx. apply Hincl, in_or_app. now left.
  - destruct (closing p) eqn:Hcl; cbn [fst snd app] in Hin |- *.
    + rewrite (run_exited (mkProc (isShuttingDown p) false (Some 0))
                 rest 0 eq_refl).
      cbn [snd].
      exists acc, ok, store. split; [reflexivity|].
      split; [now apply Hc | apply incl_refl].
    + apply (IH p acc He); [|exact Hin].
      rewrite Hcl. exact Hc.
  - cbn [fst snd app] in Hin |- *.
    destruct Hin as [Hin|Hin]; [discriminate|].
    destruct (IH p (acc ++ [Log RejectionLogged]))
      as (pre & ok & store & Heq & Hsc & Hincl);
      [exact He | intros H; apply in_or_app; left; now apply Hc | exact Hin |].
    exists pre, ok, store. rewrite <- app_assoc in Heq.
    split; [exact Heq|]. split; [exact Hsc|].
    intros x Hx. apply Hincl, in_or_app. now left.
  - cbn [fst snd app] in Hin.
    rewrite (run_exited (mkProc (isShuttingDown p) (closing p) (Some 1))
               rest 1 eq_refl) in Hin.
    cbn [snd] in Hin.
    destruct Hin as [Hin|[Hin|[]]]; discriminate.
Qed.

End Lifecycle.

(** X13: over [start] and everything that reaches the process once [start]
    has returned, however many signals arrive and whatever else happens,
    [server.close()] is called at most once, [configStore.close()] at most
    once and [process.exit] at most once. *)
Theorem shutdown_happens_at_most_once env evs :
  Index.occurrences Index.is_server_close (Index.lifetime env evs) <= 1
  /\ Index.occurrences Index.is_store_close (Index.lifetime env evs) <= 1
  /\ Index.occurrences Index.is_exit (Index.lifetime env evs) <= 1.
Proof.
  pose proof (server_close_bound evs Index.listening) as Hs.
  destruct (exit_bound evs Index.listening) as [He Hd].
  cbn [Index.isShuttingDown Index.exited Index.listening] in Hs, He, Hd.
  unfold Index.lifetime, Index.started, Index.start.
  destruct env as [[|] [|] [|]];
    cbn [Index.initConfigStore_ok Index.createServer_ok Index.listen_ok
         negb andb];
    rewrite !occurrences_app; cbn; lia.
Qed.

(** X14: the process exits with code 0 only at the end of a graceful
    shutdown: the server was listening, [server.close()] was called, then
    [configStore.close()] was attempted (also when closing the server
    failed), and [process.exit(0)] is the last thing that happens. *)
Theorem exit_zero_only_after_graceful_shutdown env evs :
  In (Index.Exit 0) (Index.lifetime env evs) ->
  exists pre (ok store : bool),
    Index.lifetime env evs
    = pre ++ [Index.Log (if ok then Index.HttpServerClosed
                         else Index.HttpCloseError);
              Index.ConfigStoreClose;
              Index.Log (if store then Index.DatabaseClosed
                         else Index.DatabaseCloseError);
              Index.Exit 0]
    /\ In Index.Listen pre
    /\ In Index.ServerClose pre.
Proof.
  unfold Index.lifetime. intros Hin.
  destruct (Index.started env) eqn:Hst.
  - apply in_app_or in Hin as [Hin|Hin].
    { exfalso. revert Hin. unfold Index.start, Index.start_failed.
      destruct env as [[|] [|] [|]]; cbn;
        intuition discriminate. }
    destruct (graceful_exit_shape evs Index.listening (Index.start env)
                eq_refl) as (pre & ok & store & Heq & Hsc & Hincl);
      [discriminate | exact Hin |].
    exists pre, ok, store. split; [exact Heq|]. split; [|exact Hsc].
    apply Hincl. revert Hst. unfold Index.started, Index.start.
    destruct env as [[|] [|] [|]]; cbn; try discriminate. intros _. auto 8.
  - exfalso. rewrite app_nil_r in Hin. revert Hin Hst.
    unfold Index.started, Index.start, Index.start_failed.
    destruct env as [[|] [|] [|]]; cbn; intuition discriminate.
Qed.

Lemma exit_zero_only_after_graceful_shutdown_witness :
  exists pre (ok store : bool),
    Index.lifetime Samples.all_starts
      [Index.Signalled Index.SIGTERM; Index.Signalled Index.SIGINT;
       Index.ServerCloseSettled false true]
    = pre ++ [Index.Log (if ok then Index.HttpServerClosed
                         else Index.HttpCloseError);
              Index.ConfigStoreClose;
              Index.Log (if store then Index.DatabaseClosed
                         else Index.DatabaseCloseError);
              Index.Exit 0]
    /\ In Index.Listen pre
    /\ In Index.ServerClose pre.
Proof.
  apply (exit_zero_only_after_graceful_shutdown Samples.all_starts).
  vm_compute. intuition.
Defined.

(** X15: when a step of [start] throws, the steps after it are not
    attempted, no signal handler is registered, and the process logs the
    error and exits with code 1; nothing happens afterwards. *)
Theorem failed_start_exits_with_one env evs :
  Index.started env = false ->
  (exists pre,
     Index.lifetime env evs = pre ++ [Index.Log Index.StartError; Index.Exit 1]
     /\ forall e, In e pre ->
          e <> Index.ServerClose /\ e <> Index.ConfigStoreClose
          /\ (forall s, e <> Index.OnSignal s)
          /\ (forall code, e <> Index.Exit code))
  /\ (Index.initConfigStore_ok env = false ->
      ~ In Index.CreateServer (Index.lifetime env evs))
  /\ (Index.initConfigStore_ok env && Index.createServer_ok env = false ->
      ~ In Index.Listen (Index.lifetime env evs)).
Proof.
  unfold Index.lifetime, Index.started, Index.start, Index.start_failed.
  destruct env as [[|] [|] [|]]; cbn; try discriminate; intros _;
    (split; [|split; intros H; try discriminate H;
                intuition discriminate]).
  - exists [Index.Log Index.InitializingStore; Index.InitConfigStore;
            Index.Log Index.StoreInitialized; Index.CreateServer;
            Index.Listen].
    split; [reflexivity|]. intros e He. simpl in He.
    repeat (destruct He as [<-|He]; [repeat split; discriminate|]).
    contradiction.
  - exists [Index.Log Index.InitializingStore; Index.InitConfigStore;
            Index.Log Index.StoreInitialized; Index.CreateServer].
    split; [reflexivity|]. intros e He. simpl in He.
    repeat (destruct He as [<-|He]; [repeat split; discriminate|]).
    contradiction.
  - exists [Index.Log Index.InitializingStore; Index.InitConfigStore;
            Index.Log Index.StoreInitialized; Index.CreateServer].
    split; [reflexivity|]. intros e He. simpl in He.
    repeat (destruct He as [<-|He]; [repeat split; discriminate|]).
    contradiction.
  - exists [Index.Log Index.InitializingStore; Index.InitConfigStore].
    split; [reflexivity|]. intros e He. simpl in He.
    repeat (destruct He as [<-|He]; [repeat split; discriminate|]).
    contradiction.
  - exists [Index.Log Index.InitializingStore; Index.InitConfigStore].
    split; [reflexivity|]. intros e He. simpl in He.
    repeat (destruct He as [<-|He]; [repeat split; discriminate|]).
    contradiction.
  - exists [Index.Log Index.InitializingStore; Index.InitConfigStore].
    split; [reflexivity|]. intros e He. simpl in He.
    repeat (destruct He as [<-|He]; [repeat split; discriminate|]).
    contradiction.
  - exists [Index.Log Index.InitializingStore; Index.InitConfigStore].
    split; [reflexivity|]. intros e He. simpl in He.
    repeat (destruct He as [<-|He]; [repeat split; discriminate|]).
    contradiction.
Qed.

Lemma failed_start_exits_with_one_witness :
  exists pre,
    Index.lifetime Samples.server_fails [Index.Signalled Index.SIGINT]
    = pre ++ [Index.Log Index.StartError; Index.Exit 1].
Proof.
  destruct (failed_start_exits_with_one Samples.server_fails
              [Index.Signalled Index.SIGINT] eq_refl)
    as ((pre & Heq & _) & _).
  now exists pre.
Defined.
